(** * rasa_core.server: authorization gate, output-channel resolution and
      conversation sweeps

    A shallow embedding of the request-handling logic of
    [rasa_core/server.py]: the [ErrorResponse] envelope, the [requires_auth]
    decorator, [_get_output_channel], and the two handlers that walk over
    every key of the tracker store ([handle_message_w_condition] and
    [trigger_resume_inactive_conv]).

    Conventions.  A Python [str] is a [string] holding its UTF-8 encoding and
    a [bytes] object is a [string] of raw bytes, so [bytes.decode('utf-8')]
    is a validity check that hands the same bytes back.  [None] is the
    [None] of an [option].  Collaborators that live outside the module (the
    agent, the tracker store, trackers, sanic, sanic_jwt) are section
    variables; a collaborator that can change the store or raise is a
    function in the monad [M] below. *)

From Stdlib Require Import String Ascii List ZArith NArith QArith Bool Lia.
From Stdlib Require Import Sorted Permutation.
Import ListNotations.
Open Scope string_scope.
Open Scope Z_scope.

Set Implicit Arguments.

(** ** Python values used by the handlers *)

(** Built-in exceptions the collaborators and the module's own expressions
    can raise; each carries the text [str(e)] gives. *)
Inductive pyexn : Type :=
| ValueError (msg : string)
| UnicodeDecodeError (msg : string)
| IndexError (msg : string)
| TypeError (msg : string)
| OtherException (msg : string).

(** [isinstance(e, ValueError)]: [UnicodeDecodeError] derives from
    [ValueError]. *)
Definition isinstance_ValueError (e : pyexn) : bool :=
  match e with
  | ValueError _ | UnicodeDecodeError _ => true
  | _ => false
  end.

Definition str_of_exn (e : pyexn) : string :=
  match e with
  | ValueError m | UnicodeDecodeError m | IndexError m
  | TypeError m | OtherException m => m
  end.

(** The JSON-like values that end up in an [error_info] or a response
    body. *)
#[warnings="-register-all"]
Inductive pyval : Type :=
| VNone
| VStr (s : string)
| VInt (n : Z)
| VExn (e : pyexn)
| VDict (d : list (string * pyval)).

Definition dict := list (string * pyval).

(** [d.get(k)] *)
Fixpoint dict_get (d : dict) (k : string) : option pyval :=
  match d with
  | [] => None
  | (k', v) :: rest => if String.eqb k' k then Some v else dict_get rest k
  end.

(** [d[k] = v]: an existing key keeps its position and takes the new value,
    a new key goes to the end. *)
Fixpoint dict_set (d : dict) (k : string) (v : pyval) : dict :=
  match d with
  | [] => [(k, v)]
  | (k', v') :: rest =>
      if String.eqb k' k then (k', v) :: rest
      else (k', v') :: dict_set rest k v
  end.

Definition dict_keys (d : dict) : list string := map fst d.

(** [a or b] on optional strings: [None] and the empty string are falsy. *)
Definition str_or (a b : option string) : option string :=
  match a with
  | Some s => if String.eqb s "" then b else Some s
  | None => b
  end.

(** [details or {}] *)
Definition dict_or_empty (details : option dict) : dict :=
  match details with
  | Some (entry :: more) => entry :: more
  | _ => []
  end.

Definition opt_str_val (o : option string) : pyval :=
  match o with
  | Some s => VStr s
  | None => VNone
  end.

(** ** ErrorResponse *)

Record ErrorResponse : Type := mkErrorResponse {
  error_info : dict;
  status : Z
}.

(** What [sanic.response.json(body, status=...)] builds. *)
Record HTTPResponse : Type := mkHTTPResponse {
  body : pyval;
  http_status : Z
}.

Definition response_json (b : dict) (st : Z) : HTTPResponse :=
  {| body := VDict b; http_status := st |}.

Section Envelope.

(** [rasa.__version__] and [constants.DOCS_BASE_URL] *)
Variable rasa_version : string.
Variable DOCS_BASE_URL : string.

(** [ErrorResponse.__init__] *)
Definition ErrorResponse_init (st : Z) (reason : string) (message : pyval)
           (details : option dict) (help_url : option string)
  : ErrorResponse :=
  {| error_info :=
       [ ("version", VStr rasa_version);
         ("status", VStr "failure");
         ("message", message);
         ("reason", VStr reason);
         ("details", VDict (dict_or_empty details));
         ("help", opt_str_val help_url);
         ("code", VInt st) ];
     status := st |}.

Definition _docs (sub_url : string) : string := DOCS_BASE_URL ++ sub_url.


(** The two failures of the authorization gate. *)
Definition NotAuthorized : ErrorResponse :=
  ErrorResponse_init 403 "NotAuthorized"
    (VStr "User has insufficient permissions.") None
    (Some (_docs "/server.html#security-considerations")).

Definition NotAuthenticated : ErrorResponse :=
  ErrorResponse_init 401 "NotAuthenticated"
    (VStr "User is not authenticated.") None
    (Some (_docs "/server.html#security-considerations")).

End Envelope.

(** ** requires_auth *)

(** The part of a request and of the application object the decorator and
    the channel resolver read. *)
Record InputChannel (OutputChannel : Type) : Type := mkInputChannel {
  name : string;                               (* channel.name() *)
  get_output_channel : option OutputChannel    (* channel.get_output_channel() *)
}.

Record Request (OutputChannel : Type) : Type := mkRequest {
  (* utils.default_arg(request, 'token', None) *)
  req_token : option string;
  (* request.app.auth.is_authenticated(request) *)
  is_authenticated : bool;
  (* request.app.auth.extract_payload(request).get("user", {}), read with
     user.get("username", None) and user.get("role", None) *)
  jwt_username : option string;
  jwt_role : option string;
  (* request.args.get(OUTPUT_CHANNEL_QUERY_KEY) *)
  args_output_channel : option string;
  (* request.raw_args.get('include_events') *)
  raw_args_include_events : option string;
  (* request.app.config.get("input_channels") *)
  config_input_channels : option (list (InputChannel OutputChannel))
}.

(** [l.index(x)]: the position of the first occurrence, [None] where Python
    raises [ValueError]. *)
Fixpoint list_index (l : list string) (x : string) : option nat :=
  match l with
  | [] => None
  | y :: rest =>
      if String.eqb y x then Some O
      else option_map S (list_index rest x)
  end.

Fixpoint kwargs_get (kwargs : list (string * string)) (k : string)
  : option string :=
  match kwargs with
  | [] => None
  | (k', v) :: rest => if String.eqb k' k then Some v else kwargs_get rest k
  end.

Definition opt_str_eqb (a b : option string) : bool :=
  match a, b with
  | Some x, Some y => String.eqb x y
  | None, None => true
  | _, _ => false
  end.

(** What the decorated handler does with a request: it either runs the
    wrapped handler [f] (whose own result, failure included, is [r]) or
    raises an [ErrorResponse] without running it. *)
Inductive gated (R : Type) : Type :=
| Dispatched (r : R)
| Rejected (e : ErrorResponse).
Arguments Rejected {R} e.

Section RequiresAuth.

Variable rasa_version : string.
Variable DOCS_BASE_URL : string.
Variable OutputChannel : Type.
Variable R : Type.

(** [app.config.get('USE_JWT')]: unset, or the value stored. *)
Variable USE_JWT : option bool.
(** the [token] the decorator was built with *)
Variable token : option string.
(** the wrapped handler and [utils.arguments_of(f)] *)
Variable f : Request OutputChannel -> list string ->
             list (string * string) -> R.
Variable argnames : list string.

Definition sender_id_from_args (args : list string)
           (kwargs : list (string * string)) : option string :=
  match list_index argnames "sender_id" with
  | Some sender_id_arg_idx =>
      match kwargs_get kwargs "sender_id" with
      | Some v => Some v
      | None =>
          if (sender_id_arg_idx <? length args)%nat
          then nth_error args sender_id_arg_idx
          else None
      end
  | None => None
  end.

Definition sufficient_scope (request : Request OutputChannel)
           (args : list string) (kwargs : list (string * string)) : bool :=
  let username := jwt_username request in
  let role := jwt_role request in
  if opt_str_eqb role (Some "admin") then true
  else if opt_str_eqb role (Some "user") then
    let sender_id := sender_id_from_args args kwargs in
    match sender_id with
    | Some _ => opt_str_eqb username sender_id
    | None => false
    end
  else false.

Definition truthy (b : option bool) : bool :=
  match b with
  | Some true => true
  | _ => false
  end.

Definition is_None {A} (o : option A) : bool :=
  match o with
  | None => true
  | Some _ => false
  end.

(** The tests of the three branches of [decorated], in the order they
    are tried. *)
Definition secret_matches (request : Request OutputChannel) : bool :=
  let provided := req_token request in
  negb (is_None token) && opt_str_eqb provided token.

Definition jwt_authenticated (request : Request OutputChannel) : bool :=
  truthy USE_JWT && is_authenticated request.

Definition auth_disabled : bool := is_None token && is_None USE_JWT.

Definition decorated (request : Request OutputChannel)
           (args : list string) (kwargs : list (string * string))
  : gated R :=
  if secret_matches request then
    Dispatched (f request args kwargs)
  else if jwt_authenticated request then
    if sufficient_scope request args kwargs then
      Dispatched (f request args kwargs)
    else Rejected (NotAuthorized rasa_version DOCS_BASE_URL)
  else if auth_disabled then
    Dispatched (f request args kwargs)
  else Rejected (NotAuthenticated rasa_version DOCS_BASE_URL).

End RequiresAuth.

(** ** ensure_loaded_agent *)

Section EnsureLoadedAgent.

Variable rasa_version : string.
Variable DOCS_BASE_URL : string.
Variable R : Type.
(** [app.agent and app.agent.is_ready()] *)
Variable agent_is_ready : bool.
Variable f : R.

Definition NoAgent : ErrorResponse :=
  ErrorResponse_init rasa_version 503 "NoAgent"
    (VStr ("No agent loaded. To continue processing, a " ++
           "model of a trained agent needs to be loaded."))
    None
    (Some (_docs DOCS_BASE_URL "/server.html#running-the-http-server")).

Definition ensure_loaded_agent : gated R :=
  if negb agent_is_ready then Rejected NoAgent else Dispatched f.

End EnsureLoadedAgent.

(** ** _get_output_channel *)

Definition OUTPUT_CHANNEL_QUERY_KEY : string := "output_channel".
Definition USE_LATEST_INPUT_CHANNEL_AS_OUTPUT_CHANNEL : string := "latest".

(** Results of code that can raise: [E] is what it raises. *)
Inductive result (E A : Type) : Type :=
| Ret (a : A)
| Raise (e : E).
Arguments Ret {E A} a.
Arguments Raise {E A} e.

Section OutputChannelResolver.

Variable OutputChannel : Type.
(** a fresh [CollectingOutputChannel()] *)
Variable CollectingOutputChannel : OutputChannel.
Variable Tracker : Type.
(** [tracker.get_latest_input_channel()] *)
Variable get_latest_input_channel : Tracker -> option string.

(** [input_channel.get_output_channel() or output_channel_created_so_far] *)
Definition output_or (output_channel_created_so_far : OutputChannel)
           (input_channel : InputChannel OutputChannel) : OutputChannel :=
  match get_output_channel input_channel with
  | Some oc => oc
  | None => output_channel_created_so_far
  end.

(** The requested name after the "latest" substitution. *)
Definition requested_channel (request : Request OutputChannel)
           (tracker : option Tracker) : option string :=
  let requested_output_channel := args_output_channel request in
  match tracker with
  | Some t =>
      if opt_str_eqb requested_output_channel
           (Some USE_LATEST_INPUT_CHANNEL_AS_OUTPUT_CHANNEL)
      then get_latest_input_channel t
      else requested_output_channel
  | None => requested_output_channel
  end.

Definition matching_channels (requested_output_channel : option string)
           (registered_input_channels : list (InputChannel OutputChannel))
  : list (InputChannel OutputChannel) :=
  filter (fun channel =>
            opt_str_eqb (Some (name channel)) requested_output_channel)
         registered_input_channels.

(** Iterating over [None] (no "input_channels" in the configuration)
    raises [TypeError]. *)
Definition _get_output_channel (request : Request OutputChannel)
           (tracker : option Tracker) : result pyexn OutputChannel :=
  let requested_output_channel := requested_channel request tracker in
  match config_input_channels request with
  | None => Raise (TypeError "'NoneType' object is not iterable")
  | Some registered_input_channels =>
      Ret (fold_left output_or
             (matching_channels requested_output_channel
                                registered_input_channels)
             CollectingOutputChannel)
  end.

End OutputChannelResolver.

(** ** compare_utcdatetime_with_timegap *)

(** A naive [datetime] is the number of microseconds since the epoch; a
    [timedelta] is the normalised triple Python keeps. *)
Definition datetime := Z.

Record timedelta : Type := mkTimedelta {
  days : Z;
  seconds : Z;        (* 0 <= seconds < 86400 *)
  microseconds : Z    (* 0 <= microseconds < 10^6 *)
}.

(** [dt_a - dt_b] *)
Definition datetime_sub (dt_a dt_b : datetime) : timedelta :=
  let us := dt_a - dt_b in
  {| days := us / 86400000000;
     seconds := (us mod 86400000000) / 1000000;
     microseconds := us mod 1000000 |}.

(** [td.total_seconds()]:
    [((days * 86400 + seconds) * 10**6 + microseconds) / 10**6], the
    quotient taken exactly. *)
Definition total_seconds (td : timedelta) : Q :=
  Qmake ((days td * 86400 + seconds td) * 1000000 + microseconds td) 1000000.

Definition compare_utcdatetime_with_timegap (dt_a dt_b : datetime) (gap : Z)
  : bool :=
  Qle_bool (inject_Z gap) (total_seconds (datetime_sub dt_a dt_b)).

(** ** Decoding a store key *)

Definition byte_in (lo hi : N) (c : ascii) : bool :=
  ((lo <=? N_of_ascii c) && (N_of_ascii c <=? hi))%N.

Definition continuation (c : ascii) : bool := byte_in 128 191 c.

(** Well-formed UTF-8: no overlong forms, no surrogates, nothing above
    U+10FFFF, no truncated sequence. *)
Fixpoint utf8_valid (b : string) : bool :=
  match b with
  | EmptyString => true
  | String c0 r0 =>
      if byte_in 0 127 c0 then utf8_valid r0
      else
        match r0 with
        | EmptyString => false
        | String c1 r1 =>
            if byte_in 194 223 c0 then continuation c1 && utf8_valid r1
            else
              match r1 with
              | EmptyString => false
              | String c2 r2 =>
                  if (byte_in 224 224 c0 && byte_in 160 191 c1)
                     || (byte_in 225 236 c0 && continuation c1)
                     || (byte_in 237 237 c0 && byte_in 128 159 c1)
                     || (byte_in 238 239 c0 && continuation c1)
                  then continuation c2 && utf8_valid r2
                  else
                    match r2 with
                    | EmptyString => false
                    | String c3 r3 =>
                        if (byte_in 240 240 c0 && byte_in 144 191 c1)
                           || (byte_in 241 243 c0 && continuation c1)
                           || (byte_in 244 244 c0 && byte_in 128 143 c1)
                        then continuation c2 && continuation c3
                             && utf8_valid r3
                        else false
                    end
              end
        end
  end.

(** [b.decode('utf-8')] *)
Definition decode_utf8 (b : string) : result pyexn string :=
  if utf8_valid b then Ret b
  else Raise (UnicodeDecodeError "'utf-8' codec can't decode bytes").

Definition is_plus (c : ascii) : bool := Ascii.eqb c "+"%char.
Definition is_digit (c : ascii) : bool := byte_in 48 57 c.

(** [re.findall('\+[0-9]+', s)]: the matches from left to right, each one a
    plus sign with the longest run of digits after it.  The scanner is
    either outside a match, just after a plus sign, or inside a match whose
    text so far is [acc]. *)
Inductive scan : Type :=
| Outside
| AfterPlus
| Inside (acc : string).

Definition restart (c : ascii) : scan :=
  if is_plus c then AfterPlus else Outside.

Fixpoint findall_scan (st : scan) (s : string) : list string :=
  match s with
  | EmptyString =>
      match st with
      | Inside acc => [acc]
      | _ => []
      end
  | String c rest =>
      match st with
      | Inside acc =>
          if is_digit c
          then findall_scan (Inside (acc ++ String c EmptyString)) rest
          else acc :: findall_scan (restart c) rest
      | AfterPlus =>
          if is_digit c
          then findall_scan (Inside (String "+" (String c EmptyString))) rest
          else findall_scan (restart c) rest
      | Outside => findall_scan (restart c) rest
      end
  end.

Definition findall_phone (s : string) : list string := findall_scan Outside s.

(** [l[0]] *)
Definition item0 (l : list string) : result pyexn string :=
  match l with
  | x :: _ => Ret x
  | [] => Raise (IndexError "list index out of range")
  end.

(** [re.findall('\+[0-9]+', id.decode('utf-8'))[0]] *)
Definition sender_id_of_key (id : string) : result pyexn string :=
  match decode_utf8 id with
  | Ret text => item0 (findall_phone text)
  | Raise e => Raise e
  end.

(** ** Handlers that touch the tracker store *)

(** What a request handler can raise: an [ErrorResponse] of its own, or an
    exception it did not catch. *)
Inductive raised : Type :=
| Uncaught (e : pyexn)
| ErrorResponseExn (e : ErrorResponse).

(** [M World E A]: a computation over the state of the agent and its
    tracker store; what it did to the state before raising stays done. *)
Definition M (World E A : Type) : Type := World -> result E A * World.

Definition ret {World E A} (a : A) : M World E A := fun w => (Ret a, w).

Definition raise {World E A} (e : E) : M World E A := fun w => (Raise e, w).

Definition bind {World E A B} (m : M World E A) (k : A -> M World E B)
  : M World E B :=
  fun w =>
    match m w with
    | (Ret a, w') => k a w'
    | (Raise e, w') => (Raise e, w')
    end.

(** a pure expression that can raise *)
Definition lift {World E A} (r : result E A) : M World E A := fun w => (r, w).

(** [try: m  except ... as e: raise handler(e)] *)
Definition try_except {World E E' A} (m : M World E A) (handler : E -> E')
  : M World E' A :=
  fun w =>
    match m w with
    | (Ret a, w') => (Ret a, w')
    | (Raise e, w') => (Raise (handler e), w')
    end.

(** an exception passing through a handler that has no [try] around it *)
Definition uncaught {World A} (m : M World pyexn A) : M World raised A :=
  try_except m Uncaught.

Declare Scope py_scope.
Delimit Scope py_scope with py.
Notation "x <- m ;; k" := (bind m (fun x => k))
  (at level 61, m at next level, right associativity) : py_scope.
Open Scope py_scope.

(** [for id in ids: responses = body(id, responses)] *)
Fixpoint for_each {World E K S} (body : K -> S -> M World E S)
         (ids : list K) (s : S) : M World E S :=
  match ids with
  | [] => ret s
  | id :: rest => s' <- body id s ;; for_each body rest s'
  end.

(** [request.json] of the two sweep endpoints, as [.get] reads it ([None]:
    the key is absent). *)
Record ConditionParams (SlotValue : Type) : Type := mkConditionParams {
  cp_name : option string;
  cp_message : option string;
  cp_slot_condition_name : option string;
  cp_slot_value : option SlotValue;
  cp_force_update : option bool
}.

Record ResumeParams (Hint : Type) : Type := mkResumeParams {
  rp_name : option string;
  rp_action : option string;
  rp_policy : option Hint;
  rp_confidence : option Hint;
  rp_force_update : option bool
}.

(** [str.format] of an optional string *)
Definition format_opt (o : option string) : string :=
  match o with
  | Some s => s
  | None => "None"
  end.

Section Sweeps.

Variable rasa_version : string.
Variable DOCS_BASE_URL : string.

Variable World : Type.
Variable OutputChannel : Type.
Variable CollectingOutputChannel : OutputChannel.
Variable Tracker : Type.
Variable get_latest_input_channel : Tracker -> option string.

(** *** The tracker store and the agent *)

(** [bool(app.agent.tracker_store)] *)
Variable has_tracker_store : bool.
(** [app.agent.tracker_store.keys()] *)
Variable store_keys : M World pyexn (list string).
Variable get_or_create_tracker : string -> M World pyexn Tracker.
Variable init_tracker : string -> M World pyexn Tracker.

(** [tracker.get_slot(name)]; a slot holds a [SlotValue] or [None], and
    [slot_eqb] is Python's [==] on them *)
Variable SlotValue : Type.
Variable slot_eqb : option SlotValue -> option SlotValue -> bool.
Variable get_slot : Tracker -> string -> result pyexn (option SlotValue).

(** [agent.handle_text(message, output_channel=..., sender_id=...)] *)
Variable handle_text :
  option string -> OutputChannel -> string -> M World pyexn unit.

(** [agent.execute_action(id, action, output_channel, policy, confidence)] *)
Variable Hint : Type.
Variable execute_action :
  string -> option string -> OutputChannel -> option Hint -> option Hint ->
  M World pyexn unit.

(** [tracker.current_state(verbosity)], [state["latest_event_time"]],
    [tracker.as_dialogue()], [new_tracker.recreate_from_dialogue(d)] (the
    tracker after the call) and [datetime.utcfromtimestamp] *)
Variable EventVerbosity : Type.
Variable State : Type.
Variable Timestamp : Type.
Variable Dialogue : Type.
Variable current_state : Tracker -> EventVerbosity -> result pyexn State.
Variable latest_event_time : State -> result pyexn Timestamp.
Variable as_dialogue : Tracker -> result pyexn Dialogue.
Variable recreate_from_dialogue :
  Tracker -> Dialogue -> result pyexn Tracker.
Variable utcfromtimestamp : Timestamp -> result pyexn datetime.
(** [datetime.datetime.utcnow()] *)
Variable utcnow : World -> datetime.

Definition NoTrackerStore : ErrorResponse :=
  ErrorResponse_init rasa_version 503 "NoTrackerStore"
    (VStr ("No tracker store available. Make sure to " ++
           "configure a tracker store when starting " ++
           "the server."))
    None None.

Definition retrieve_keys : M World raised (list string) :=
  if negb has_tracker_store then raise (ErrorResponseExn NoTrackerStore)
  else uncaught store_keys.

(** *** handle_message_w_condition *)

Section ConditionalDispatch.

Variable request : Request OutputChannel.
Variable request_params : ConditionParams SlotValue.

Definition message_to_handle : option string :=
  str_or (cp_name request_params) (cp_message request_params).

Definition slot_name : string :=
  match cp_slot_condition_name request_params with
  | Some s => s
  | None => ""
  end.

Definition slot_value : option SlotValue := cp_slot_value request_params.

Definition condition_force_update : bool :=
  match cp_force_update request_params with
  | Some b => b
  | None => false
  end.

(** The condition of the [if] for one key: the key is decoded, the
    tracker fetched and its slot compared. *)
Definition condition_holds (id : string)
  : M World pyexn (string * Tracker * bool) :=
  sender_id_str <- lift (sender_id_of_key id) ;;
  tracker <- get_or_create_tracker sender_id_str ;;
  tracker_slot_value <- lift (get_slot tracker slot_name) ;;
  ret (sender_id_str, tracker,
       condition_force_update || slot_eqb tracker_slot_value slot_value).

(** The body of the [if]. *)
Definition dispatch_message (id sender_id_str : string)
           (tracker : Tracker) (responses : dict) : M World pyexn dict :=
  output_channel <-
    lift (_get_output_channel CollectingOutputChannel
            get_latest_input_channel request (Some tracker)) ;;
  _ <- handle_text message_to_handle output_channel sender_id_str ;;
  ret (dict_set responses id
         (VStr ("Message " ++ format_opt message_to_handle ++
                " handle from id " ++ sender_id_str))).

(** One turn of the loop. *)
Definition condition_body (id : string) (responses : dict)
  : M World pyexn dict :=
  c <- condition_holds id ;;
  let '(sender_id_str, tracker, holds) := c in
  if holds then dispatch_message id sender_id_str tracker responses
  else ret responses.

(** The two [except] clauses around the loop. *)
Definition condition_except (e : pyexn) : raised :=
  if isinstance_ValueError e then
    ErrorResponseExn
      (ErrorResponse_init rasa_version 400 "ValueError" (VExn e) None None)
  else
    ErrorResponseExn
      (ErrorResponse_init rasa_version 500 "ActionException"
         (VStr ("Server failure. Error: " ++ str_of_exn e)) None None).

Definition handle_message_w_condition : M World raised HTTPResponse :=
  ids <- retrieve_keys ;;
  responses <-
    try_except (for_each condition_body ids []) condition_except ;;
  ret (response_json responses 200).

End ConditionalDispatch.

(** *** trigger_resume_inactive_conv *)

(** *** event_verbosity_parameter *)

(** The [EventVerbosity] enumeration: its members in order, the name of
    a member, the lookup [EventVerbosity[s]] ([None]: [KeyError]); and
    [str.upper]. *)
Variable EventVerbosity_members : list EventVerbosity.
Variable verbosity_name : EventVerbosity -> string.
Variable EventVerbosity_item : string -> option EventVerbosity.
Variable AFTER_RESTART APPLIED : EventVerbosity.
Variable upper : string -> string.

Definition event_verbosity_parameter (request : Request OutputChannel)
           (default_verbosity : EventVerbosity)
  : result ErrorResponse EventVerbosity :=
  let event_verbosity_str :=
    upper (match raw_args_include_events request with
           | Some s => s
           | None => verbosity_name default_verbosity
           end) in
  match EventVerbosity_item event_verbosity_str with
  | Some v => Ret v
  | None =>
      let enum_values :=
        String.concat ", " (map verbosity_name EventVerbosity_members) in
      Raise (ErrorResponse_init rasa_version 404 "InvalidParameter"
               (VStr ("Invalid parameter value for 'include_events'. " ++
                      "Should be one of " ++ enum_values))
               (Some [("parameter", VStr "include_events");
                      ("in", VStr "query")])
               None)
  end.

Section ResumeInactive.

Variable request : Request OutputChannel.
Variable request_params : ResumeParams Hint.

Definition action_to_execute : option string :=
  str_or (rp_name request_params) (rp_action request_params).

Definition resume_force_update : bool :=
  match rp_force_update request_params with
  | Some b => b
  | None => false
  end.

Definition seconds_in_a_day : Z := 86400.

(** Everything one turn of the loop does before its [if]: none of it is
    inside a [try]. *)
Definition stale_holds (verbosity : EventVerbosity)
           (current_time : datetime) (id : string)
  : M World pyexn (Tracker * bool) :=
  tracker <- get_or_create_tracker id ;;
  id_state <- lift (current_state tracker verbosity) ;;
  tracker_dialogue <- lift (as_dialogue tracker) ;;
  new_tracker <- init_tracker id ;;
  new_tracker <- lift (recreate_from_dialogue new_tracker tracker_dialogue) ;;
  ts <- lift (latest_event_time id_state) ;;
  last_event_ts_from_id <- lift (utcfromtimestamp ts) ;;
  ret (new_tracker,
       resume_force_update
       || compare_utcdatetime_with_timegap
            current_time last_event_ts_from_id seconds_in_a_day).

(** The body of the [try]. *)
Definition trigger_action (id : string) (new_tracker : Tracker)
           (responses : dict) : M World pyexn dict :=
  output_channel <-
    lift (_get_output_channel CollectingOutputChannel
            get_latest_input_channel request (Some new_tracker)) ;;
  _ <- execute_action id action_to_execute output_channel
         (rp_policy request_params) (rp_confidence request_params) ;;
  ret (dict_set responses id (VStr "Action trigger sent")).

(** The two [except] clauses inside the loop. *)
Definition resume_except (e : pyexn) : raised :=
  if isinstance_ValueError e then
    ErrorResponseExn
      (ErrorResponse_init rasa_version 400 "ValueError" (VExn e) None None)
  else
    ErrorResponseExn
      (ErrorResponse_init rasa_version 500 "ValueError"
         (VStr ("Server failure. Error: " ++ str_of_exn e)) None None).

Definition resume_body (verbosity : EventVerbosity)
           (current_time : datetime) (id : string)
           (responses : dict) : M World raised dict :=
  c <- uncaught (stale_holds verbosity current_time id) ;;
  let '(new_tracker, holds) := c in
  if holds
  then try_except (trigger_action id new_tracker responses) resume_except
  else ret responses.

(** The loop, given the verbosity and the time it starts at. *)
Definition resume_loop (verbosity : EventVerbosity)
           (current_time : datetime) (ids : list string)
  : M World raised dict :=
  for_each (resume_body verbosity current_time) ids [].

Definition trigger_resume_inactive_conv : M World raised HTTPResponse :=
  verbosity <-
    try_except
      (lift (event_verbosity_parameter request
               (if negb resume_force_update then AFTER_RESTART
                else APPLIED)))
      ErrorResponseExn ;;
  ids <- retrieve_keys ;;
  current_time <- (fun w => (Ret (utcnow w), w)) ;;
  responses <- resume_loop verbosity current_time ids ;;
  ret (response_json responses 200).

(** *** execute_action: the action for one conversation

    [request_params] holds the same keys as for the sweep; the answer is
    the state under "tracker". *)
Definition execute_action_endpoint (sender_id : string)
  : M World raised State :=
  verbosity <-
    try_except (lift (event_verbosity_parameter request AFTER_RESTART))
               ErrorResponseExn ;;
  try_except
    (tracker <- get_or_create_tracker sender_id ;;
     output_channel <-
       lift (_get_output_channel CollectingOutputChannel
               get_latest_input_channel request (Some tracker)) ;;
     _ <- execute_action sender_id action_to_execute output_channel
            (rp_policy request_params) (rp_confidence request_params) ;;
     tracker <- get_or_create_tracker sender_id ;;
     state <- lift (current_state tracker verbosity) ;;
     ret state)
    resume_except.

End ResumeInactive.

End Sweeps.

(** ** Properties the specification talks about *)

(** The string holds a plus sign directly followed by a digit, that is, a
    substring matching [\+[0-9]+]. *)
Definition contains_phone (s : string) : Prop :=
  exists pre d post,
    s = pre ++ String "+" (String d post) /\ is_digit d = true.

(** Digits only; and: the first character is a digit. *)
Fixpoint all_digits (s : string) : bool :=
  match s with
  | EmptyString => true
  | String c rest => is_digit c && all_digits rest
  end.

Definition starts_with_digit (s : string) : bool :=
  match s with
  | String c _ => is_digit c
  | EmptyString => false
  end.

Definition provides_output {OutputChannel} (ch : InputChannel OutputChannel)
  : bool :=
  negb (is_None (get_output_channel ch)).

(** The resolver as the specification words it: the first candidate, in
    registration order, that can produce an output channel. *)
Definition first_providing {OutputChannel} (fallback : OutputChannel)
           (candidates : list (InputChannel OutputChannel)) : OutputChannel :=
  match find provides_output candidates with
  | Some ch => output_or fallback ch
  | None => fallback
  end.

(** The last such candidate. *)
Definition last_providing {OutputChannel} (fallback : OutputChannel)
           (candidates : list (InputChannel OutputChannel)) : OutputChannel :=
  first_providing fallback (rev candidates).

(** The shape of an [error_info]. *)
Definition envelope_fields : list string :=
  ["version"; "status"; "message"; "reason"; "details"; "help"; "code"].

Definition is_dict (v : option pyval) : Prop :=
  exists d, v = Some (VDict d).

Definition well_formed (e : ErrorResponse) : Prop :=
  dict_keys (error_info e) = envelope_fields
  /\ dict_get (error_info e) "status" = Some (VStr "failure")
  /\ is_dict (dict_get (error_info e) "details")
  /\ dict_get (error_info e) "code" = Some (VInt (status e)).

Definition reason_of (e : ErrorResponse) : option pyval :=
  dict_get (error_info e) "reason".

(** ** A small deployment to run the handlers on

    The store knows its senders by name; a tracker is the sender with the
    time of its latest event in seconds.  The world is the list of senders
    the agent has acted for, latest first.  The store is down for the
    sender "down", the agent cannot run an action for "B" and rejects a
    message to "+666" with a [ValueError]. *)
Module Demo.

Definition World : Type := list string.
Definition Tracker : Type := (string * Z)%type.

Inductive EventVerbosity : Type := NONE | APPLIED | AFTER_RESTART | ALL.

Definition verbosity_name (v : EventVerbosity) : string :=
  match v with
  | NONE => "NONE"
  | APPLIED => "APPLIED"
  | AFTER_RESTART => "AFTER_RESTART"
  | ALL => "ALL"
  end.

Definition EventVerbosity_item (s : string) : option EventVerbosity :=
  find (fun v => String.eqb (verbosity_name v) s)
       [NONE; APPLIED; AFTER_RESTART; ALL].

Definition version : string := "1.0".
Definition docs : string := "https://rasa.com/docs/core".

(** the sweep starts 200000 seconds after the epoch *)
Definition utcnow (w : World) : datetime := 200000 * 1000000.

Definition latest_event_of (id : string) : Z :=
  if String.eqb id "fresh" then 199000
  else if String.eqb id "edge" then 200000 - 86400
  else if String.eqb id "near" then 200000 - 86399
  else 0.

Definition get_or_create_tracker (id : string) : M World pyexn Tracker :=
  if String.eqb id "down"
  then raise (OtherException "store unavailable")
  else ret (id, latest_event_of id).

Definition init_tracker (id : string) : M World pyexn Tracker :=
  ret (id, 0).

Definition get_slot (t : Tracker) (slot : string)
  : result pyexn (option string) :=
  Ret (if String.eqb slot "language" then Some "fr" else None).

Definition handle_text (message : option string) (oc : string)
           (sender_id : string) : M World pyexn unit :=
  if String.eqb sender_id "+666"
  then raise (ValueError "message rejected")
  else fun w => (Ret tt, sender_id :: w).

Definition execute_action (id : string) (action : option string)
           (oc : string) (policy confidence : option string)
  : M World pyexn unit :=
  if String.eqb id "B"
  then raise (OtherException "action failed")
  else fun w => (Ret tt, id :: w).

Definition request : Request string :=
  {| req_token := None;
     is_authenticated := false;
     jwt_username := None;
     jwt_role := None;
     args_output_channel := None;
     raw_args_include_events := None;
     config_input_channels := Some [] |}.

Definition resume_params : ResumeParams string :=
  {| rp_name := Some "action_resume";
     rp_action := None;
     rp_policy := None;
     rp_confidence := None;
     rp_force_update := None |}.

Definition condition_params : ConditionParams string :=
  {| cp_name := Some "hello";
     cp_message := None;
     cp_slot_condition_name := Some "language";
     cp_slot_value := Some "fr";
     cp_force_update := None |}.

Definition latest_channel (t : Tracker) : option string := None.
Definition current_state (t : Tracker) (v : EventVerbosity)
  : result pyexn Z := Ret (snd t).
Definition latest_event_time (st : Z) : result pyexn Z := Ret st.
Definition as_dialogue (t : Tracker) : result pyexn unit := Ret tt.
Definition recreate_from_dialogue (t : Tracker) (d : unit)
  : result pyexn Tracker := Ret t.
(** timestamps are whole seconds *)
Definition utcfromtimestamp (ts : Z) : result pyexn datetime :=
  Ret (ts * 1000000).
Definition members : list EventVerbosity := [NONE; APPLIED; AFTER_RESTART; ALL].
Definition upper (s : string) : string := s.

(** [trigger_resume_inactive_conv] over a store with the keys [ids] *)
Definition resume (ids : list string) : M World raised HTTPResponse :=
  trigger_resume_inactive_conv version "collector" latest_channel
    true (ret ids) get_or_create_tracker init_tracker execute_action
    current_state latest_event_time as_dialogue recreate_from_dialogue
    utcfromtimestamp utcnow members verbosity_name EventVerbosity_item
    AFTER_RESTART APPLIED upper request resume_params.

(** [handle_message_w_condition] over a store with the keys [ids] *)
Definition dispatch (ids : list string) : M World raised HTTPResponse :=
  handle_message_w_condition version "collector" latest_channel
    true (ret ids) get_or_create_tracker opt_str_eqb get_slot handle_text
    request condition_params.

(** a key that is not UTF-8: the single byte 0xFF *)
Definition not_utf8 : string := String "255"%char "".

(** a handler behind the gate, and requests with a token of alice *)
Definition handler (request : Request string) (args : list string)
           (kwargs : list (string * string)) : string := "handled".

Definition argnames : list string := ["request"; "sender_id"].

Definition alice_request : Request string :=
  {| req_token := None;
     is_authenticated := true;
     jwt_username := Some "alice";
     jwt_role := Some "user";
     args_output_channel := None;
     raw_args_include_events := None;
     config_input_channels := Some [] |}.

(** the same token, sent along with the shared secret *)
Definition secret_request : Request string :=
  {| req_token := Some "s3cret";
     is_authenticated := true;
     jwt_username := Some "alice";
     jwt_role := Some "user";
     args_output_channel := None;
     raw_args_include_events := None;
     config_input_channels := Some [] |}.

Definition gate (USE_JWT : option bool) (token : option string)
  : Request string -> list string -> list (string * string) -> gated string :=
  decorated version docs USE_JWT token handler argnames.

(** two registered channels with the same name, both able to answer *)
Definition telegram_request : Request string :=
  {| req_token := None;
     is_authenticated := false;
     jwt_username := None;
     jwt_role := None;
     args_output_channel := Some "telegram";
     raw_args_include_events := None;
     config_input_channels :=
       Some [ {| name := "telegram"; get_output_channel := Some "first" |};
              {| name := "slack"; get_output_channel := Some "other" |};
              {| name := "telegram"; get_output_channel := Some "second" |} ]
  |}.

End Demo.

(** ** Endpoints behind both decorators *)

Section GuardedEndpoint.

Variable rasa_version : string.
Variable DOCS_BASE_URL : string.
Variable OutputChannel : Type.
Variable R : Type.
Variable USE_JWT : option bool.
Variable token : option string.
(** [app.agent and app.agent.is_ready()] *)
Variable agent_is_ready : bool.
Variable handler : Request OutputChannel -> list string ->
                   list (string * string) -> R.
Variable argnames : list string.

(** [@requires_auth(app, auth_token)] on top of
    [@ensure_loaded_agent(app)]: the outer decorator runs the inner one as
    its handler. *)
Definition guarded_endpoint (request : Request OutputChannel)
           (args : list string) (kwargs : list (string * string))
  : gated (gated R) :=
  decorated rasa_version DOCS_BASE_URL USE_JWT token
    (fun request args kwargs =>
       ensure_loaded_agent rasa_version DOCS_BASE_URL agent_is_ready
         (handler request args kwargs))
    argnames request args kwargs.

End GuardedEndpoint.

(** ** list_trackers *)

Section ListTrackers.

Variable World : Type.
Variable has_tracker_store : bool.
Variable store_keys : M World pyexn (list string).


End ListTrackers.

(** A plus sign, one digit, then digits only. *)
Definition phone_shaped (m : string) : Prop :=
  exists d ds,
    m = String "+" (String d ds)
    /\ is_digit d = true /\ all_digits ds = true.

(** What the scanner has read so far ends with the text of its state. *)
Definition scan_follows (st : scan) (read : string) : Prop :=
  match st with
  | Outside => True
  | AfterPlus => exists before, read = (before ++ "+")%string
  | Inside acc => exists before, read = (before ++ acc)%string
  end.

(** ** Handlers of one conversation *)

(** JSON objects whose values are of any kind: [d.get(k)] and [d[k] = v]. *)
Fixpoint assoc_get {V : Type} (d : list (string * V)) (k : string)
  : option V :=
  match d with
  | [] => None
  | (k', v) :: rest => if String.eqb k' k then Some v else assoc_get rest k
  end.

Fixpoint assoc_set {V : Type} (d : list (string * V)) (k : string) (v : V)
  : list (string * V) :=
  match d with
  | [] => [(k, v)]
  | (k', v') :: rest =>
      if String.eqb k' k then (k', v) :: rest
      else (k', v') :: assoc_set rest k v
  end.

(** [k in l] for a list of strings *)
Definition str_in (k : string) (l : list string) : bool :=
  existsb (String.eqb k) l.

(** [d[k]] raises [KeyError] for a missing key. *)
Inductive KeyError : Type :=
| mkKeyError (key : string).

(** *** The messages of a conversation *)

Definition set_key_value (key : string) : string :=
  if String.eqb key "event" then "author" else key.

Definition user_bot_kv_list : list string := ["user"; "bot"].
Definition user_bot_keys_list : list string := ["event"; "timestamp"; "text"].

Section ConversationMessages.

(** The values of an event; [value_is_str v s] is [v == s] for a string
    [s], [value_truthy v] is [bool(v)]. *)
Variable Value : Type.
Variable value_is_str : Value -> string -> bool.
Variable value_truthy : Value -> bool.

Definition event : Type := list (string * Value).

Definition getitem (e : event) (k : string) : result KeyError Value :=
  match assoc_get e k with
  | Some v => Ret v
  | None => Raise (mkKeyError k)
  end.

(** [[e for e in events if test(e)]]: the first test that raises ends the
    comprehension. *)
Fixpoint comprehension_if (test : event -> result KeyError bool)
         (events : list event) : result KeyError (list event) :=
  match events with
  | [] => Ret []
  | e :: rest =>
      match test e with
      | Raise k => Raise k
      | Ret keep =>
          match comprehension_if test rest with
          | Raise k => Raise k
          | Ret kept => Ret (if keep then e :: kept else kept)
          end
      end
  end.

(** [dict(items)] *)
Definition dict_of_items (items : list (string * Value)) : event :=
  fold_left (fun d kv => assoc_set d (fst kv) (snd kv)) items [].

(** [e["event"] in user_bot_kv_list] *)
Definition is_user_or_bot (e : event) : result KeyError bool :=
  match getitem e "event" with
  | Ret v => Ret (existsb (value_is_str v) user_bot_kv_list)
  | Raise k => Raise k
  end.

(** [dict((set_key_value(key), value) for key, value in a.items()
          if key in user_bot_keys_list)] *)
Definition message_view (a : event) : event :=
  dict_of_items
    (map (fun kv => (set_key_value (fst kv), snd kv))
         (filter (fun kv => str_in (fst kv) user_bot_keys_list) a)).

(** [e["text"]] taken as a condition *)
Definition has_text (e : event) : result KeyError bool :=
  match getitem e "text" with
  | Ret v => Ret (value_truthy v)
  | Raise k => Raise k
  end.

(** What [retrieve_conversation_messages] makes of [state["events"]]: the
    list under "events" in its answer. *)
Definition conversation_messages (all_events : list event)
  : result KeyError (list event) :=
  match comprehension_if is_user_or_bot all_events with
  | Raise k => Raise k
  | Ret all_user_bot_events =>
      let user_bot_events := map message_view all_user_bot_events in
      comprehension_if has_text user_bot_events
  end.

End ConversationMessages.

(** *** predict *)

Record ActionScore : Type := mkActionScore {
  action : string;
  score : Q
}.

(** [(-a['score'], a['action']) < (-b['score'], b['action'])]: tuples
    compare by their first components unless these are equal. *)
Definition score_key_lt (a b : ActionScore) : bool :=
  if Qeq_bool (- score a) (- score b)
  then String.ltb (action a) (action b)
  else negb (Qle_bool (- score b) (- score a)).

(** [sorted(l, key=...)]: a stable sort; an element goes in front of the
    first one that is not smaller than it. *)
Fixpoint insert_by {A : Type} (lt : A -> A -> bool) (x : A) (l : list A)
  : list A :=
  match l with
  | [] => [x]
  | y :: rest => if lt y x then y :: insert_by lt x rest else x :: y :: rest
  end.

Definition sorted_by {A : Type} (lt : A -> A -> bool) (l : list A) : list A :=
  fold_right (insert_by lt) [] l.

Section Predict.

Variable rasa_version : string.
Variable World : Type.
(** the entries of a prediction other than "scores" *)
Variable Prediction : Type.
(** [app.agent.predict_next(sender_id)]: its "scores" and the rest *)
Variable predict_next :
  string -> M World pyexn (list ActionScore * Prediction).

Definition predict_except (e : pyexn) : raised :=
  ErrorResponseExn
    (ErrorResponse_init rasa_version 500 "PredictionException"
       (VStr ("Server failure. Error: " ++ str_of_exn e)) None None).

Definition predict (sender_id : string)
  : M World raised (list ActionScore * Prediction) :=
  try_except
    (responses <- predict_next sender_id ;;
     ret (sorted_by score_key_lt (fst responses), snd responses))
    predict_except.

End Predict.

(** *** respond and log_message *)

(** The request as these two handlers read it. *)
Record MessageRequest (Value : Type) : Type := mkMessageRequest {
  (* request.method *)
  method : string;
  (* request.raw_args *)
  raw_args : list (string * Value);
  (* request.json: it can raise, and it is None without a body *)
  json : result pyexn (option (list (string * Value)))
}.

Section Messages.

Variable rasa_version : string.
Variable World : Type.
Variable OutputChannel : Type.
Variable CollectingOutputChannel : OutputChannel.
Variable Value : Type.
(** [v == s] for a string [s], and [str(v)] ([None] is no value) *)
Variable value_is_str : Value -> string -> bool.
Variable str_of_value : option Value -> string.
Variable Replies : Type.
(** [agent.handle_text(message, output_channel=out, sender_id=sender_id)] *)
Variable handle_text :
  Value -> OutputChannel -> string -> M World pyexn Replies.
(** [agent.log_message(UserMessage(message, None, sender_id, parse_data))]
    followed by [tracker.current_state(verbosity)] *)
Variable EventVerbosity : Type.
Variable State : Type.
Variable log_user_message :
  option Value -> string -> option Value -> EventVerbosity ->
  M World pyexn State.
(** [event_verbosity_parameter(request, EventVerbosity.AFTER_RESTART)] *)
Variable verbosity_parameter : result ErrorResponse EventVerbosity.

Definition request_parameters (request : MessageRequest Value)
  : result pyexn (option (list (string * Value))) :=
  if String.eqb (method request) "GET" then Ret (Some (raw_args request))
  else json request.

Definition MissingMessage : ErrorResponse :=
  ErrorResponse_init rasa_version 400 "InvalidParameter"
    (VStr "Missing the message parameter.")
    (Some [("parameter", VStr "query"); ("in", VStr "query")]) None.

Definition respond_except (e : pyexn) : raised :=
  ErrorResponseExn
    (ErrorResponse_init rasa_version 500 "ActionException"
       (VStr ("Server failure. Error: " ++ str_of_exn e)) None None).

Definition respond (request : MessageRequest Value) (sender_id : string)
  : M World raised Replies :=
  match request_parameters request with
  | Raise e => raise (Uncaught e)
  | Ret None =>
      raise (Uncaught (TypeError "argument of type 'NoneType' is not iterable"))
  | Ret (Some request_params) =>
      match assoc_get request_params "query" with
      | Some message =>
          try_except (handle_text message CollectingOutputChannel sender_id)
                     respond_except
      | None =>
          match assoc_get request_params "q" with
          | Some message =>
              try_except
                (handle_text message CollectingOutputChannel sender_id)
                respond_except
          | None => raise (ErrorResponseExn MissingMessage)
          end
      end
  end.

Definition NotSupported (sender : option Value) : ErrorResponse :=
  ErrorResponse_init rasa_version 500 "NotSupported"
    (VStr ("Currently, only user messages can be passed " ++
           "to this endpoint. Messages of sender '" ++
           str_of_value sender ++ "' cannot be handled."))
    (Some [("parameter", VStr "sender"); ("in", VStr "body")]) None.

Definition log_message_except (e : pyexn) : raised :=
  ErrorResponseExn
    (ErrorResponse_init rasa_version 500 "MessageException"
       (VStr ("Server failure. Error: " ++ str_of_exn e)) None None).

(** [sender != "user"] *)
Definition sender_is_not_user (sender : option Value) : bool :=
  match sender with
  | Some v => negb (value_is_str v "user")
  | None => true
  end.

Definition log_message (request : MessageRequest Value) (sender_id : string)
  : M World raised State :=
  match json request with
  | Raise e => raise (Uncaught e)
  | Ret None =>
      raise (Uncaught (TypeError "'NoneType' object is not subscriptable"))
  | Ret (Some request_params) =>
      let message :=
        match assoc_get request_params "message" with
        | Some v => Some v
        | None => assoc_get request_params "text"
        end in
      let sender := assoc_get request_params "sender" in
      let parse_data := assoc_get request_params "parse_data" in
      match verbosity_parameter with
      | Raise e => raise (ErrorResponseExn e)
      | Ret verbosity =>
          if sender_is_not_user sender
          then raise (ErrorResponseExn (NotSupported sender))
          else try_except
                 (log_user_message message sender_id parse_data verbosity)
                 log_message_except
      end
  end.

End Messages.

(** *** get_domain *)

(** [s.endswith(suffix)] *)
Fixpoint ends_with (s suffix : string) : bool :=
  String.eqb s suffix
  || match s with
     | EmptyString => false
     | String _ rest => ends_with rest suffix
     end.

(** the double-quote character as a string *)
Definition double_quote : string := String "034"%char EmptyString.

Inductive DomainAnswer (D : Type) : Type :=
| JsonAnswer (domain : D)
| YamlAnswer (text : string) (answer_status : Z) (content_type : string).
Arguments YamlAnswer {D} text answer_status content_type.

Section GetDomain.

Variable rasa_version : string.
Variable D : Type.
(** [app.agent.domain.as_dict()] and [app.agent.domain.as_yaml()] *)
Variable as_dict : result pyexn D.
Variable as_yaml : result pyexn string.

Definition InvalidHeader : ErrorResponse :=
  ErrorResponse_init rasa_version 406 "InvalidHeader"
    (VStr ("Invalid Accept header. Domain can be " ++
           "provided as " ++
           "json (" ++ double_quote ++ "Accept: application/json" ++
           double_quote ++ ") or" ++
           "yml (" ++ double_quote ++ "Accept: application/x-yml" ++
           double_quote ++ "). " ++
           "Make sure you've set the appropriate Accept " ++
           "header."))
    None None.

(** [headers_accept]: [request.headers.get("Accept")] before the default *)
Definition get_domain (headers_accept : option string)
  : result raised (DomainAnswer D) :=
  let accepts :=
    match headers_accept with
    | Some a => a
    | None => "application/json"
    end in
  if ends_with accepts "json" then
    match as_dict with
    | Ret domain => Ret (JsonAnswer domain)
    | Raise e => Raise (Uncaught e)
    end
  else if ends_with accepts "yml" || ends_with accepts "yaml" then
    match as_yaml with
    | Ret domain_yaml => Ret (YamlAnswer domain_yaml 200 "application/x-yml")
    | Raise e => Raise (Uncaught e)
    end
  else Raise (ErrorResponseExn InvalidHeader).

(** The two answers, for the statements below. *)
Definition json_domain : result raised (DomainAnswer D) :=
  match as_dict with
  | Ret domain => Ret (JsonAnswer domain)
  | Raise e => Raise (Uncaught e)
  end.

Definition yaml_domain : result raised (DomainAnswer D) :=
  match as_yaml with
  | Ret text => Ret (YamlAnswer text 200 "application/x-yml")
  | Raise e => Raise (Uncaught e)
  end.

End GetDomain.

(** The events that show in the answer, for events that have the keys
    "event" and "text" where they are read; and the plain renaming of the
    selected entries. *)
Definition shown_message {Value : Type}
           (value_is_str : Value -> string -> bool)
           (value_truthy : Value -> bool) (e : list (string * Value)) : bool :=
  match assoc_get e "event", assoc_get e "text" with
  | Some kind, Some text =>
      existsb (value_is_str kind) user_bot_kv_list && value_truthy text
  | _, _ => false
  end.

Definition renamed_entries {Value : Type} (e : list (string * Value))
  : list (string * Value) :=
  map (fun kv => (set_key_value (fst kv), snd kv))
      (filter (fun kv => str_in (fst kv) user_bot_keys_list) e).

(** [a] may stand before [b]: its score is higher, or the scores are the
    same and its action name is not the greater one. *)
Definition ranks_before (a b : ActionScore) : Prop :=
  (score b < score a)%Q
  \/ (score a == score b /\ String.leb (action a) (action b) = true).

(** Neither of two elements is smaller than the other. *)
Definition same_rank {A : Type} (lt : A -> A -> bool) (a b : A) : bool :=
  negb (lt a b) && negb (lt b a).

(** ** More of the small deployment *)
Module Sample.

Definition forced_params : ResumeParams string :=
  {| rp_name := Some "action_resume";
     rp_action := None;
     rp_policy := None;
     rp_confidence := None;
     rp_force_update := Some true |}.

(** a request that asks for a verbosity that does not exist *)
Definition loud_request : Request string :=
  {| req_token := None;
     is_authenticated := false;
     jwt_username := None;
     jwt_role := None;
     args_output_channel := None;
     raw_args_include_events := Some "loud";
     config_input_channels := Some [] |}.

Definition admin_request : Request string :=
  {| req_token := None;
     is_authenticated := true;
     jwt_username := Some "root";
     jwt_role := Some "admin";
     args_output_channel := None;
     raw_args_include_events := None;
     config_input_channels := Some [] |}.

Definition guest_request : Request string :=
  {| req_token := None;
     is_authenticated := true;
     jwt_username := Some "alice";
     jwt_role := Some "guest";
     args_output_channel := None;
     raw_args_include_events := None;
     config_input_channels := Some [] |}.

Definition resume_with (has_tracker_store : bool) (request : Request string)
           (params : ResumeParams string) (ids : list string)
  : M Demo.World raised HTTPResponse :=
  trigger_resume_inactive_conv Demo.version "collector" Demo.latest_channel
    has_tracker_store (ret ids) Demo.get_or_create_tracker Demo.init_tracker
    Demo.execute_action Demo.current_state Demo.latest_event_time
    Demo.as_dialogue Demo.recreate_from_dialogue Demo.utcfromtimestamp
    Demo.utcnow Demo.members Demo.verbosity_name Demo.EventVerbosity_item
    Demo.AFTER_RESTART Demo.APPLIED Demo.upper request params.

Definition dispatch_with (has_tracker_store : bool) (ids : list string)
  : M Demo.World raised HTTPResponse :=
  handle_message_w_condition Demo.version "collector" Demo.latest_channel
    has_tracker_store (ret ids) Demo.get_or_create_tracker opt_str_eqb
    Demo.get_slot Demo.handle_text Demo.request Demo.condition_params.

Definition execute_one (request : Request string) (sender_id : string)
  : M Demo.World raised Z :=
  execute_action_endpoint Demo.version "collector" Demo.latest_channel
    Demo.get_or_create_tracker Demo.execute_action Demo.current_state
    Demo.members Demo.verbosity_name Demo.EventVerbosity_item
    Demo.AFTER_RESTART Demo.upper request Demo.resume_params sender_id.

Definition parse_verbosity (request : Request string)
           (default_verbosity : Demo.EventVerbosity)
  : result ErrorResponse Demo.EventVerbosity :=
  event_verbosity_parameter Demo.version Demo.members Demo.verbosity_name
    Demo.EventVerbosity_item Demo.upper request default_verbosity.

(** JSON values of the sample events and bodies *)
Inductive jval : Type :=
| JNull
| JStr (s : string)
| JNum (n : Z).

Definition is_str (v : jval) (s : string) : bool :=
  match v with
  | JStr t => String.eqb t s
  | _ => false
  end.

Definition truthy (v : jval) : bool :=
  match v with
  | JNull => false
  | JStr s => negb (String.eqb s "")
  | JNum n => negb (n =? 0)
  end.

Definition str_of (v : option jval) : string :=
  match v with
  | Some (JStr s) => s
  | Some JNull | None => "None"
  | Some (JNum _) => "0"
  end.

Definition events : list (list (string * jval)) :=
  [ [("event", JStr "user"); ("timestamp", JNum 1); ("text", JStr "hi");
     ("parse_data", JNull)];
    [("event", JStr "action"); ("timestamp", JNum 2);
     ("name", JStr "action_listen")];
    [("event", JStr "bot"); ("timestamp", JNum 3); ("text", JNull)];
    [("timestamp", JNum 4); ("event", JStr "bot"); ("text", JStr "hello")] ].

Definition messages_of_events : list (list (string * jval)) :=
  [ [("author", JStr "user"); ("timestamp", JNum 1); ("text", JStr "hi")];
    [("timestamp", JNum 4); ("author", JStr "bot"); ("text", JStr "hello")] ].

Definition scores : list ActionScore :=
  [ {| action := "utter_bye"; score := Qmake 1 5 |};
    {| action := "utter_hi"; score := Qmake 1 2 |};
    {| action := "action_listen"; score := Qmake 2 4 |} ].

Definition ranked_scores : list ActionScore :=
  [ {| action := "action_listen"; score := Qmake 2 4 |};
    {| action := "utter_hi"; score := Qmake 1 2 |};
    {| action := "utter_bye"; score := Qmake 1 5 |} ].

Definition predict_next (sender_id : string)
  : M Demo.World pyexn (list ActionScore * string) :=
  if String.eqb sender_id "down"
  then raise (OtherException "no policy")
  else ret (scores, "policy_0").

Definition handle_text (message : jval) (oc : string) (sender_id : string)
  : M Demo.World pyexn (list jval) :=
  if String.eqb sender_id "+666"
  then raise (ValueError "message rejected")
  else fun w => (Ret [message], sender_id :: w).

Definition log_user_message (message : option jval) (sender_id : string)
           (parse_data : option jval) (v : Demo.EventVerbosity)
  : M Demo.World pyexn Z :=
  fun w => (Ret 1, sender_id :: w).

Definition post (body : list (string * jval)) : MessageRequest jval :=
  {| method := "POST"; raw_args := []; json := Ret (Some body) |}.

Definition respond_to (request : MessageRequest jval) (sender_id : string)
  : M Demo.World raised (list jval) :=
  respond Demo.version "collector" handle_text request sender_id.

Definition log (request : MessageRequest jval) (sender_id : string)
  : M Demo.World raised Z :=
  log_message Demo.version is_str str_of log_user_message
    (Ret Demo.AFTER_RESTART) request sender_id.

Definition endpoint (USE_JWT : option bool) (token : option string)
           (agent_is_ready : bool)
  : Request string -> list string -> list (string * string) ->
    gated (gated string) :=
  guarded_endpoint Demo.version Demo.docs USE_JWT token agent_is_ready
    Demo.handler Demo.argnames.

End Sample.

(** * Properties *)

Open Scope list_scope.

(** ** Basic facts *)

Lemma opt_str_eqb_eq (a b : option string) :
  opt_str_eqb a b = true <-> a = b.
Proof.
  destruct a as [x|], b as [y|]; simpl; split; intro H;
    try discriminate; try reflexivity.
  - apply String.eqb_eq in H. now subst.
  - injection H as ->. apply String.eqb_refl.
Qed.

Lemma opt_str_eqb_refl (a : option string) : opt_str_eqb a a = true.
Proof. now apply opt_str_eqb_eq. Qed.

Lemma opt_str_eqb_neq (a b : option string) :
  opt_str_eqb a b = false <-> a <> b.
Proof.
  split.
  - intros H Heq. apply opt_str_eqb_eq in Heq. congruence.
  - intro H. destruct (opt_str_eqb a b) eqn:E; [|reflexivity].
    apply opt_str_eqb_eq in E. contradiction.
Qed.

Lemma Rejected_inj (R : Type) (e1 e2 : ErrorResponse) :
  @Rejected R e1 = Rejected e2 -> e1 = e2.
Proof. intro H. congruence. Qed.

Lemma envelope_well_formed version st reason message details help_url :
  well_formed (ErrorResponse_init version st reason message details help_url).
Proof.
  repeat split. exists (dict_or_empty details). reflexivity.
Qed.

(** ** The authorization gate *)

Section GateProperties.

Variable rasa_version : string.
Variable DOCS_BASE_URL : string.
Variable OutputChannel : Type.
Variable R : Type.
Variable USE_JWT : option bool.
Variable token : option string.
Variable f : Request OutputChannel -> list string ->
             list (string * string) -> R.
Variable argnames : list string.

Local Abbreviation gate :=
  (decorated rasa_version DOCS_BASE_URL USE_JWT token f argnames).
Local Abbreviation Forbidden := (NotAuthorized rasa_version DOCS_BASE_URL).
Local Abbreviation Unauthenticated := (NotAuthenticated rasa_version DOCS_BASE_URL).

Lemma forbidden_is_not_unauthenticated : Forbidden <> Unauthenticated.
Proof. intro H. apply (f_equal status) in H. discriminate H. Qed.

Lemma user_scope (request : Request OutputChannel) args kwargs :
  jwt_role request = Some "user" ->
  sufficient_scope argnames request args kwargs = true <->
  exists s, sender_id_from_args argnames args kwargs = Some s
            /\ jwt_username request = Some s.
Proof.
  intro Hrole. unfold sufficient_scope. rewrite Hrole. simpl.
  destruct (sender_id_from_args argnames args kwargs) as [s|].
  - rewrite opt_str_eqb_eq. split.
    + intro H. exists s. now split.
    + intros [s' [Hs Hu]]. congruence.
  - split; [discriminate|]. intros [s [Hs _]]. discriminate.
Qed.

(** C2.  In bearer/JWT mode (the shared secret did not match, JWT is on
    and the request carries a valid token) with [role = "user"], the
    handler runs if and only if the operation has a [sender_id] and it
    equals the token's username; otherwise, and in particular when the
    operation has no [sender_id], the request fails with 403
    [NotAuthorized], which is not the 401 [NotAuthenticated] failure. *)
Theorem user_granted_iff_owner (request : Request OutputChannel) args kwargs :
  secret_matches token request = false ->
  jwt_authenticated USE_JWT request = true ->
  jwt_role request = Some "user" ->
  let owner :=
    exists s, sender_id_from_args argnames args kwargs = Some s
              /\ jwt_username request = Some s in
  (gate request args kwargs = Dispatched (f request args kwargs) <-> owner)
  /\ (~ owner -> gate request args kwargs = Rejected Forbidden)
  /\ (sender_id_from_args argnames args kwargs = None ->
      gate request args kwargs = Rejected Forbidden)
  /\ status Forbidden = 403
  /\ reason_of Forbidden = Some (VStr "NotAuthorized")
  /\ Forbidden <> Unauthenticated.
Proof.
  intros Hsecret Hjwt Hrole owner.
  assert (Hscope := user_scope request args kwargs Hrole).
  fold owner in Hscope.
  assert (Hdeny : ~ owner -> gate request args kwargs = Rejected Forbidden).
  { intro Hno. unfold decorated. rewrite Hsecret, Hjwt.
    destruct (sufficient_scope argnames request args kwargs); [|reflexivity].
    exfalso. apply Hno, Hscope. reflexivity. }
  repeat split.
  - intro H. unfold decorated in H. rewrite Hsecret, Hjwt in H.
    destruct (sufficient_scope argnames request args kwargs);
      [now apply Hscope | discriminate].
  - intro H. apply Hscope in H. unfold decorated.
    now rewrite Hsecret, Hjwt, H.
  - exact Hdeny.
  - intro Hnone. apply Hdeny. intros [s [Hs _]]. congruence.
  - apply forbidden_is_not_unauthenticated.
Qed.

(** C3.  When a shared secret is configured and the request's token
    equals it, the handler runs: whatever the JWT settings, the token's
    role and username, and the [sender_id] of the operation. *)
Theorem shared_secret_grants (request : Request OutputChannel) args kwargs
        (secret : string) :
  token = Some secret ->
  req_token request = Some secret ->
  gate request args kwargs = Dispatched (f request args kwargs).
Proof.
  intros Htoken Hprovided. unfold decorated, secret_matches.
  rewrite Htoken, Hprovided. simpl. now rewrite String.eqb_refl.
Qed.

(** C5.  When neither a shared secret nor JWT is configured, the handler
    runs for every request; a sequence of requests is dispatched one by
    one, each to the handler. *)
Theorem disabled_auth_grants :
  token = None ->
  USE_JWT = None ->
  (forall (request : Request OutputChannel) args kwargs,
      gate request args kwargs = Dispatched (f request args kwargs))
  /\ (forall requests : list (Request OutputChannel),
         map (fun request => gate request [] []) requests
         = map (fun request => Dispatched (f request [] [])) requests).
Proof.
  intros Htoken Hjwt.
  assert (H : forall (request : Request OutputChannel) args kwargs,
             gate request args kwargs = Dispatched (f request args kwargs)).
  { intros request args kwargs.
    unfold decorated, secret_matches, jwt_authenticated, auth_disabled.
    rewrite Htoken, Hjwt. reflexivity. }
  split; [exact H|].
  intro requests. apply map_ext. intro request. apply H.
Qed.

(** C6.  A request that passes none of the three tests of the gate fails
    with 401 [NotAuthenticated]; so does one whose token differs from the
    configured secret, and one without a valid JWT when JWT is on, unless
    another test lets it through.  The failure differs from the 403 one. *)
Theorem unmatched_is_unauthenticated (request : Request OutputChannel)
        args kwargs :
  (secret_matches token request = false ->
   jwt_authenticated USE_JWT request = false ->
   auth_disabled USE_JWT token = false ->
   gate request args kwargs = Rejected Unauthenticated)
  /\ (forall secret,
         token = Some secret ->
         req_token request <> Some secret ->
         jwt_authenticated USE_JWT request = false ->
         gate request args kwargs = Rejected Unauthenticated)
  /\ (USE_JWT = Some true ->
      is_authenticated request = false ->
      secret_matches token request = false ->
      gate request args kwargs = Rejected Unauthenticated)
  /\ (gate request args kwargs = Rejected Unauthenticated ->
      secret_matches token request = false
      /\ jwt_authenticated USE_JWT request = false
      /\ auth_disabled USE_JWT token = false)
  /\ status Unauthenticated = 401
  /\ reason_of Unauthenticated = Some (VStr "NotAuthenticated")
  /\ Unauthenticated <> Forbidden.
Proof.
  assert (Hnone : secret_matches token request = false ->
                  jwt_authenticated USE_JWT request = false ->
                  auth_disabled USE_JWT token = false ->
                  gate request args kwargs = Rejected Unauthenticated).
  { intros H1 H2 H3. unfold decorated. now rewrite H1, H2, H3. }
  split; [exact Hnone|].
  split.
  { intros secret Htoken Hdiff Hjwt. apply Hnone; [|exact Hjwt|].
    - unfold secret_matches. rewrite Htoken. simpl.
      apply opt_str_eqb_neq. exact Hdiff.
    - unfold auth_disabled. now rewrite Htoken. }
  split.
  { intros Hjwt Hauth Hsecret. apply Hnone; [exact Hsecret| |].
    - unfold jwt_authenticated. rewrite Hauth. apply andb_false_r.
    - unfold auth_disabled. rewrite Hjwt. apply andb_false_r. }
  split.
  { unfold decorated. intro H.
    destruct (secret_matches token request); [discriminate|].
    destruct (jwt_authenticated USE_JWT request).
    - destruct (sufficient_scope argnames request args kwargs);
        [discriminate|].
      apply Rejected_inj in H. now apply forbidden_is_not_unauthenticated in H.
    - destruct (auth_disabled USE_JWT token); [discriminate|].
      repeat split. }
  split; [reflexivity|]. split; [reflexivity|].
  intro H. symmetry in H. now apply forbidden_is_not_unauthenticated in H.
Qed.

(** *** Roles and the owner of the operation *)

Lemma jwt_mode_runs_scope (request : Request OutputChannel) args kwargs :
  secret_matches token request = false ->
  jwt_authenticated USE_JWT request = true ->
  gate request args kwargs
  = if sufficient_scope argnames request args kwargs
    then Dispatched (f request args kwargs)
    else Rejected Forbidden.
Proof.
  intros Hsecret Hjwt. unfold decorated. now rewrite Hsecret, Hjwt.
Qed.

(** X1.  In JWT mode a token with the role "admin" runs the handler
    whatever the username and whatever conversation the operation is
    about, also one that has no [sender_id]. *)
Theorem admin_is_granted_any_target (request : Request OutputChannel)
        args kwargs :
  secret_matches token request = false ->
  jwt_authenticated USE_JWT request = true ->
  jwt_role request = Some "admin" ->
  gate request args kwargs = Dispatched (f request args kwargs).
Proof.
  intros Hsecret Hjwt Hrole. rewrite jwt_mode_runs_scope by assumption.
  unfold sufficient_scope. now rewrite Hrole.
Qed.

(** X2.  In JWT mode a token whose role is neither "admin" nor "user",
    or that has no role, is refused with 403 [NotAuthorized], also when
    its username is the [sender_id] of the operation. *)
Theorem other_role_is_forbidden (request : Request OutputChannel)
        args kwargs :
  secret_matches token request = false ->
  jwt_authenticated USE_JWT request = true ->
  jwt_role request <> Some "admin" ->
  jwt_role request <> Some "user" ->
  gate request args kwargs = Rejected Forbidden.
Proof.
  intros Hsecret Hjwt Hadmin Huser. rewrite jwt_mode_runs_scope by assumption.
  unfold sufficient_scope.
  apply opt_str_eqb_neq in Hadmin. apply opt_str_eqb_neq in Huser.
  now rewrite Hadmin, Huser.
Qed.

Lemma list_index_None (l : list string) (x : string) :
  list_index l x = None <-> ~ In x l.
Proof.
  induction l as [|y l IH]; simpl.
  - intuition.
  - destruct (String.eqb y x) eqn:Eyx.
    + apply String.eqb_eq in Eyx. subst. split; [discriminate|].
      intro H. exfalso. apply H. now left.
    + apply String.eqb_neq in Eyx.
      destruct (list_index l x); simpl.
      * split; [discriminate|]. intro H. exfalso.
        destruct IH as [_ IH].
        assert (Hn : ~ In x l) by (intro Hin; apply H; now right).
        discriminate (IH Hn).
      * split; [|reflexivity]. intros _ [Hy | Hin]; [contradiction|].
        now apply IH.
Qed.

(** X3.  When the handler has no parameter called [sender_id] (a listing
    of all conversations, for one), no [sender_id] is found, whatever the
    request carries, and in JWT mode every token with the role "user" is
    refused with 403 [NotAuthorized]. *)
Theorem user_is_forbidden_without_sender_parameter
        (request : Request OutputChannel) args kwargs :
  ~ In "sender_id" argnames ->
  sender_id_from_args argnames args kwargs = None
  /\ (secret_matches token request = false ->
      jwt_authenticated USE_JWT request = true ->
      jwt_role request = Some "user" ->
      gate request args kwargs = Rejected Forbidden).
Proof.
  intro Hno. apply list_index_None in Hno.
  assert (Hnone : sender_id_from_args argnames args kwargs = None).
  { unfold sender_id_from_args. now rewrite Hno. }
  split; [exact Hnone|].
  intros Hsecret Hjwt Hrole. rewrite jwt_mode_runs_scope by assumption.
  unfold sufficient_scope. now rewrite Hrole, Hnone.
Qed.

Lemma list_index_nth (l : list string) (x : string) (i : nat) :
  list_index l x = Some i ->
  nth_error l i = Some x /\ forall j, (j < i)%nat -> nth_error l j <> Some x.
Proof.
  revert i. induction l as [|y l IH]; intros i H; simpl in H.
  - discriminate H.
  - destruct (String.eqb y x) eqn:Eyx.
    + apply String.eqb_eq in Eyx. injection H as <-. subst.
      split; [reflexivity|]. intros j Hj. inversion Hj.
    + apply String.eqb_neq in Eyx.
      destruct (list_index l x) as [i'|]; [|discriminate H].
      injection H as <-. destruct (IH i' eq_refl) as [Hnth Hmin].
      split; [exact Hnth|]. intros [|j] Hj; simpl.
      * congruence.
      * apply Hmin. apply PeanoNat.Nat.succ_lt_mono. exact Hj.
Qed.

(** X4.  For a handler that has a [sender_id] parameter, the [sender_id]
    is the keyword argument of that name when there is one, whatever the
    positional arguments are; without it, it is the positional argument at
    the position of the first parameter called [sender_id], and none
    when there are too few positional arguments. *)
Theorem sender_id_prefers_keyword args kwargs (i : nat) :
  list_index argnames "sender_id" = Some i ->
  nth_error argnames i = Some "sender_id"
  /\ (forall v, kwargs_get kwargs "sender_id" = Some v ->
                sender_id_from_args argnames args kwargs = Some v)
  /\ (kwargs_get kwargs "sender_id" = None ->
      sender_id_from_args argnames args kwargs = nth_error args i)
  /\ (kwargs_get kwargs "sender_id" = None ->
      (length args <= i)%nat ->
      sender_id_from_args argnames args kwargs = None).
Proof.
  intro Hidx.
  assert (Hpos : kwargs_get kwargs "sender_id" = None ->
                 sender_id_from_args argnames args kwargs = nth_error args i).
  { intro Hkw. unfold sender_id_from_args. rewrite Hidx, Hkw.
    destruct (i <? length args)%nat eqn:Elt; [reflexivity|].
    apply PeanoNat.Nat.ltb_ge in Elt. symmetry.
    now apply nth_error_None. }
  split; [apply (list_index_nth _ _ Hidx)|]. split; [|split].
  - intros v Hkw. unfold sender_id_from_args. now rewrite Hidx, Hkw.
  - exact Hpos.
  - intros Hkw Hshort. rewrite Hpos by exact Hkw. now apply nth_error_None.
Qed.

End GateProperties.

(** ** The output-channel resolver *)

Section ResolverProperties.

Variable OutputChannel : Type.
Variable CollectingOutputChannel : OutputChannel.
Variable Tracker : Type.
Variable get_latest_input_channel : Tracker -> option string.

Local Abbreviation resolve :=
  (_get_output_channel CollectingOutputChannel get_latest_input_channel).

Lemma output_or_provides acc (ch : InputChannel OutputChannel) :
  provides_output ch = true -> forall acc', output_or acc ch = output_or acc' ch.
Proof.
  unfold provides_output, output_or.
  destruct (get_output_channel ch); [reflexivity | discriminate].
Qed.

Lemma output_or_silent acc (ch : InputChannel OutputChannel) :
  provides_output ch = false -> output_or acc ch = acc.
Proof.
  unfold provides_output, output_or.
  destruct (get_output_channel ch); [discriminate | reflexivity].
Qed.

(** The fold keeps the output of the last candidate that has one. *)
Lemma fold_output_or_last (candidates : list (InputChannel OutputChannel)) acc :
  fold_left (@output_or _) candidates acc = last_providing acc candidates.
Proof.
  induction candidates as [|ch rest IH] using rev_ind.
  - reflexivity.
  - rewrite fold_left_app. simpl. unfold last_providing.
    rewrite rev_app_distr. simpl. unfold first_providing at 1. simpl.
    destruct (provides_output ch) eqn:E.
    + now apply output_or_provides.
    + rewrite output_or_silent by exact E. exact IH.
Qed.

Lemma fold_output_or_silent (post : list (InputChannel OutputChannel)) acc :
  Forall (fun ch => get_output_channel ch = None) post ->
  fold_left (@output_or _) post acc = acc.
Proof.
  intro H. revert acc. induction H as [|ch post Hch _ IH]; intro acc.
  - reflexivity.
  - simpl. unfold output_or at 2. rewrite Hch. apply IH.
Qed.

(** C4 (amended).  With the registered channels [channels], the resolver
    returns the output channel of the last registered channel, among those
    whose name equals the resolved requested name, that can produce one:
    the one after which no matching channel produces an output.  When no
    matching channel produces one (no match at all, or no requested name)
    it returns the collecting channel. *)
Theorem resolver_selects_last (request : Request OutputChannel)
        (tracker : option Tracker) channels :
  config_input_channels request = Some channels ->
  let candidates :=
    matching_channels (requested_channel get_latest_input_channel
                                         request tracker) channels in
  resolve request tracker = Ret (last_providing CollectingOutputChannel candidates)
  /\ (forall pre ch post oc,
         candidates = pre ++ ch :: post ->
         get_output_channel ch = Some oc ->
         Forall (fun c => get_output_channel c = None) post ->
         resolve request tracker = Ret oc)
  /\ (Forall (fun c => get_output_channel c = None) candidates ->
      resolve request tracker = Ret CollectingOutputChannel)
  /\ Forall (fun c => In c channels
                      /\ Some (name c)
                         = requested_channel get_latest_input_channel
                                             request tracker) candidates.
Proof.
  intros Hcfg candidates.
  assert (Hfold : resolve request tracker
                  = Ret (fold_left (@output_or _) candidates
                                   CollectingOutputChannel)).
  { unfold _get_output_channel. now rewrite Hcfg. }
  split; [|split; [|split]].
  - rewrite Hfold. f_equal. apply fold_output_or_last.
  - intros pre ch post oc Hsplit Hch Hpost. rewrite Hfold, Hsplit. f_equal.
    rewrite fold_left_app. simpl. unfold output_or at 2. rewrite Hch.
    now apply fold_output_or_silent.
  - intro Hnone. rewrite Hfold. f_equal. now apply fold_output_or_silent.
  - apply Forall_forall. intros c Hc. unfold candidates, matching_channels in Hc.
    apply filter_In in Hc. destruct Hc as [Hin Hname].
    split; [exact Hin|]. now apply opt_str_eqb_eq.
Qed.

End ResolverProperties.

(** C4, as stated, fails.  Two channels are registered under the name
    "telegram" and both can produce an output: the resolver returns the
    output of the second one, not of the first. *)
Lemma resolver_does_not_select_first :
  let channels :=
    [ {| name := "telegram"; get_output_channel := Some "first" |};
      {| name := "slack"; get_output_channel := Some "other" |};
      {| name := "telegram"; get_output_channel := Some "second" |} ] in
  config_input_channels Demo.telegram_request = Some channels
  /\ _get_output_channel "collector" Demo.latest_channel
       Demo.telegram_request None = Ret "second"
  /\ first_providing "collector"
       (matching_channels (Some "telegram") channels) = "first"
  /\ _get_output_channel "collector" Demo.latest_channel
       Demo.telegram_request None
     <> Ret (first_providing "collector"
               (matching_channels (Some "telegram") channels)).
Proof.
  repeat split. intro H. discriminate H.
Qed.

Lemma resolver_selects_last_witness :
  _get_output_channel "collector" Demo.latest_channel
    Demo.telegram_request None = Ret "second".
Proof.
  apply (resolver_selects_last "collector" Demo.latest_channel
           Demo.telegram_request None eq_refl).
Defined.

(** ** The staleness test *)


(** The normalised triple is the one Python keeps. *)
Lemma datetime_sub_normalised (dt_a dt_b : datetime) :
  0 <= seconds (datetime_sub dt_a dt_b) < 86400
  /\ 0 <= microseconds (datetime_sub dt_a dt_b) < 1000000.
Proof.
  unfold datetime_sub. simpl. set (us := dt_a - dt_b).
  assert (H := Z.mod_pos_bound us 86400000000 ltac:(lia)).
  split.
  - split.
    + apply Z.div_pos; lia.
    + apply Z.div_lt_upper_bound; lia.
  - apply Z.mod_pos_bound. lia.
Qed.


(** ** Scanning a key for a phone number *)

Lemma is_plus_eq (c : ascii) : is_plus c = true <-> c = "+"%char.
Proof. apply Ascii.eqb_eq. Qed.

Lemma plus_is_not_digit (c : ascii) : is_plus c = true -> is_digit c = false.
Proof. intro H. apply is_plus_eq in H. now subst. Qed.

Lemma contains_phone_empty : ~ contains_phone "".
Proof.
  intros [pre [d [post [H _]]]]. destruct pre; discriminate H.
Qed.

Lemma contains_phone_cons (c : ascii) (s : string) :
  contains_phone (String c s)
  <-> (c = "+"%char /\ exists d post, s = String d post /\ is_digit d = true)
      \/ contains_phone s.
Proof.
  split.
  - intros [pre [d [post [H Hd]]]]. destruct pre as [|c' pre]; simpl in H.
    + injection H as -> ->. left. split; [reflexivity|]. now exists d, post.
    + injection H as -> ->. right. now exists pre, d, post.
  - intros [[-> [d [post [-> Hd]]]] | [pre [d [post [-> Hd]]]]].
    + now exists "", d, post.
    + now exists (String c pre), d, post.
Qed.

Lemma findall_inside_nonempty (s acc : string) :
  findall_scan (Inside acc) s <> [].
Proof.
  revert acc. induction s as [|c rest IH]; intro acc; simpl.
  - discriminate.
  - destruct (is_digit c); [apply IH | discriminate].
Qed.

(** The scanner finds nothing exactly when the text holds no plus sign
    followed by a digit. *)
Lemma findall_scan_empty (s : string) :
  (findall_scan Outside s = [] <-> ~ contains_phone s)
  /\ (findall_scan AfterPlus s = [] <-> ~ contains_phone (String "+" s)).
Proof.
  induction s as [|c rest [IHout IHplus]].
  - split; simpl; split; intro H; try reflexivity.
    + apply contains_phone_empty.
    + rewrite contains_phone_cons.
      intros [[_ [d [post [Hd _]]]] | Hc]; [discriminate Hd|].
      now apply contains_phone_empty.
  - assert (Hout : findall_scan Outside (String c rest) = []
                   <-> ~ contains_phone (String c rest)).
    { simpl. unfold restart. destruct (is_plus c) eqn:Ec.
      - apply is_plus_eq in Ec. subst c. exact IHplus.
      - rewrite IHout, contains_phone_cons. split.
        + intros Hno [[-> _] | Hc]; [discriminate Ec | now apply Hno].
        + intros Hno Hc. apply Hno. now right. }
    split; [exact Hout|].
    rewrite (contains_phone_cons "+" (String c rest)).
    simpl. destruct (is_digit c) eqn:Ed.
    + split.
      * intro H. now apply findall_inside_nonempty in H.
      * intro H. exfalso. apply H. left. split; [reflexivity|].
        now exists c, rest.
    + change (findall_scan (restart c) rest)
        with (findall_scan Outside (String c rest)).
      rewrite Hout. split.
      * intros Hno [[_ [d [post [Heq Hd]]]] | Hc]; [|now apply Hno].
        injection Heq as -> ->. congruence.
      * intros Hno Hc. apply Hno. now right.
Qed.

Lemma findall_phone_empty (s : string) :
  findall_phone s = [] <-> ~ contains_phone s.
Proof. apply findall_scan_empty. Qed.

(** Before the first match the scanner finds nothing and waits for a plus
    sign. *)
Lemma scan_to_plus (pre t : string) :
  (~ contains_phone pre ->
   findall_scan Outside (pre ++ String "+" t)%string
   = findall_scan AfterPlus t)
  /\ (~ contains_phone (String "+" pre) ->
      findall_scan AfterPlus (pre ++ String "+" t)%string
      = findall_scan AfterPlus t).
Proof.
  induction pre as [|c pre [IHout IHplus]].
  - split; intros _; reflexivity.
  - assert (Hout : ~ contains_phone (String c pre) ->
                   findall_scan Outside (String c pre ++ String "+" t)%string
                   = findall_scan AfterPlus t).
    { intro Hno. simpl. unfold restart. destruct (is_plus c) eqn:Ec.
      - apply is_plus_eq in Ec. subst c. now apply IHplus.
      - apply IHout. intro Hc. apply Hno, contains_phone_cons. now right. }
    split; [exact Hout|].
    intro Hno. simpl. destruct (is_digit c) eqn:Ed.
    + exfalso. apply Hno, contains_phone_cons. left. split; [reflexivity|].
      now exists c, pre.
    + apply Hout. intro Hc. apply Hno, contains_phone_cons. now right.
Qed.

Lemma append_empty (s : string) : (s ++ "")%string = s.
Proof. induction s; simpl; congruence. Qed.

Lemma append_snoc (s t : string) (c : ascii) :
  ((s ++ String c "") ++ t)%string = (s ++ String c t)%string.
Proof. induction s; simpl; congruence. Qed.

(** Inside a match the scanner takes every digit that follows. *)
Lemma scan_digits (ds rest acc : string) :
  all_digits ds = true -> starts_with_digit rest = false ->
  exists more,
    findall_scan (Inside acc) (ds ++ rest)%string = (acc ++ ds)%string :: more.
Proof.
  revert acc. induction ds as [|d ds IH]; intros acc Hds Hrest; simpl.
  - rewrite append_empty. destruct rest as [|c rest]; simpl.
    + now exists [].
    + simpl in Hrest. rewrite Hrest. now eexists.
  - simpl in Hds. apply andb_prop in Hds. destruct Hds as [Hd Hds].
    rewrite Hd. destruct (IH (acc ++ String d "")%string Hds Hrest)
      as [more Hmore].
    exists more. now rewrite Hmore, append_snoc.
Qed.

(** The first item found is the leftmost plus sign that has a digit after
    it, with all the digits that follow. *)
Lemma findall_phone_first_match (pre ds rest : string) (d : ascii) :
  ~ contains_phone pre ->
  is_digit d = true -> all_digits ds = true ->
  starts_with_digit rest = false ->
  exists more,
    findall_phone (pre ++ String "+" (String d ds) ++ rest)%string
    = String "+" (String d ds) :: more.
Proof.
  intros Hpre Hd Hds Hrest. unfold findall_phone.
  change (String "+" (String d ds) ++ rest)%string
    with (String "+" (String d (ds ++ rest)%string)).
  rewrite (proj1 (scan_to_plus pre _) Hpre). simpl. rewrite Hd.
  apply (scan_digits ds rest (String "+" (String d "")) Hds Hrest).
Qed.

Example findall_phone_two_matches :
  findall_phone "a+b++12+3x+" = ["+12"; "+3"].
Proof. reflexivity. Qed.

Example utf8_valid_two_byte : utf8_valid (String "195" (String "169" "")) = true.
Proof. reflexivity. Qed.

Example utf8_valid_overlong : utf8_valid (String "192" (String "128" "")) = false.
Proof. reflexivity. Qed.

Example utf8_valid_surrogate :
  utf8_valid (String "237" (String "160" (String "128" ""))) = false.
Proof. reflexivity. Qed.

Example utf8_valid_truncated : utf8_valid (String "226" (String "130" "")) = false.
Proof. reflexivity. Qed.

Lemma sender_id_of_key_Ret (id sid : string) :
  sender_id_of_key id = Ret sid <->
  utf8_valid id = true /\ exists more, findall_phone id = sid :: more.
Proof.
  unfold sender_id_of_key, decode_utf8.
  destruct (utf8_valid id).
  - destruct (findall_phone id) as [|m more]; simpl; split.
    + discriminate.
    + intros [_ [more H]]. discriminate H.
    + intro H. injection H as ->. split; [reflexivity|]. now exists more.
    + intros [_ [more' H]]. injection H as -> _. reflexivity.
  - split; [discriminate|]. intros [H _]. discriminate H.
Qed.

Lemma sender_id_of_key_no_phone (id : string) :
  utf8_valid id = true -> ~ contains_phone id ->
  sender_id_of_key id = Raise (IndexError "list index out of range").
Proof.
  intros Hvalid Hno. apply findall_phone_empty in Hno.
  unfold sender_id_of_key, decode_utf8. now rewrite Hvalid, Hno.
Qed.

Lemma sender_id_of_key_not_utf8 (id : string) :
  utf8_valid id = false ->
  exists e, sender_id_of_key id = Raise e /\ isinstance_ValueError e = true.
Proof.
  intro H. unfold sender_id_of_key, decode_utf8. rewrite H.
  eexists. split; reflexivity.
Qed.

(** ** Loops over the keys *)

Section LoopProperties.

Variables World E : Type.
Variable body : string -> dict -> M World E dict.

Lemma for_each_app (l1 l2 : list string) (s : dict) (w : World) :
  for_each body (l1 ++ l2) s w
  = match for_each body l1 s w with
    | (Ret s1, w1) => for_each body l2 s1 w1
    | (Raise e, w1) => (Raise e, w1)
    end.
Proof.
  revert s w. induction l1 as [|k l1 IH]; intros s w; simpl.
  - reflexivity.
  - unfold bind. destruct (body k s w) as [[s1|e] w1]; [apply IH | reflexivity].
Qed.

(** A key whose turn raises ends the loop there. *)
Lemma for_each_stops pre k post s w s1 w1 e w2 :
  for_each body pre s w = (Ret s1, w1) ->
  body k s1 w1 = (Raise e, w2) ->
  for_each body (pre ++ k :: post) s w = (Raise e, w2).
Proof.
  intros Hpre Hk. rewrite for_each_app, Hpre. simpl. unfold bind.
  now rewrite Hk.
Qed.


(** A loop that returns has run the turn of each key. *)
Lemma for_each_ret_inv pre k post s w s' w' :
  for_each body (pre ++ k :: post) s w = (Ret s', w') ->
  exists s1 w1 s2 w2,
    for_each body pre s w = (Ret s1, w1)
    /\ body k s1 w1 = (Ret s2, w2)
    /\ for_each body post s2 w2 = (Ret s', w').
Proof.
  rewrite for_each_app. destruct (for_each body pre s w) as [[s1|e] w1].
  - simpl. unfold bind. destruct (body k s1 w1) as [[s2|e] w2] eqn:Hk.
    + intro H. now exists s1, w1, s2, w2.
    + discriminate.
  - discriminate.
Qed.

(** Each turn leaves the responses alone or sets the entry of its key. *)
Hypothesis body_sets_own_key :
  forall k s w s' w',
    body k s w = (Ret s', w') -> s' = s \/ exists v, s' = dict_set s k v.

Lemma dict_set_keys (d : dict) k v k' :
  In k' (dict_keys (dict_set d k v)) <-> k' = k \/ In k' (dict_keys d).
Proof.
  induction d as [|[k0 v0] d IH]; simpl.
  - intuition.
  - destruct (String.eqb k0 k) eqn:Ek; simpl.
    + apply String.eqb_eq in Ek. subst. intuition.
    + rewrite IH. intuition.
Qed.

Lemma dict_set_length (d : dict) k v :
  (length (dict_set d k v) <= S (length d))%nat.
Proof.
  induction d as [|[k0 v0] d IH]; simpl; [lia|].
  destruct (String.eqb k0 k); simpl; lia.
Qed.

Lemma dict_set_NoDup (d : dict) k v :
  NoDup (dict_keys d) -> NoDup (dict_keys (dict_set d k v)).
Proof.
  induction d as [|[k0 v0] d IH]; simpl; intro H.
  - constructor; [intros []|constructor].
  - inversion H as [|? ? Hnotin Hrest]; subst.
    destruct (String.eqb k0 k) eqn:Ek; simpl.
    + now constructor.
    + constructor; [|now apply IH].
      change (~ In k0 (dict_keys (dict_set d k v))).
      rewrite dict_set_keys. intros [-> | Hin]; [|contradiction].
      now rewrite String.eqb_refl in Ek.
Qed.

Lemma for_each_keys ids s w s' w' :
  for_each body ids s w = (Ret s', w') ->
  (forall k, In k (dict_keys s') -> In k (dict_keys s) \/ In k ids)
  /\ (forall k, In k (dict_keys s) -> In k (dict_keys s'))
  /\ (length s' <= length s + length ids)%nat
  /\ (NoDup (dict_keys s) -> NoDup (dict_keys s')).
Proof.
  revert s w. induction ids as [|k ids IH]; intros s w H; simpl in H.
  - injection H as -> ->. repeat split; auto. simpl. lia.
  - unfold bind in H. destruct (body k s w) as [[s1|e] w1] eqn:Hk;
      [|discriminate H].
    destruct (IH _ _ H) as (Hsub & Hmono & Hlen & Hnd).
    apply body_sets_own_key in Hk.
    destruct Hk as [-> | [v ->]].
    + repeat split; auto.
      * intros k' Hk'. destruct (Hsub _ Hk'); [now left | right; now right].
      * simpl. lia.
    + repeat split.
      * intros k' Hk'. destruct (Hsub _ Hk') as [Hin | Hin].
        -- apply dict_set_keys in Hin. destruct Hin as [-> | Hin];
             [right; now left | now left].
        -- right; now right.
      * intros k' Hk'. apply Hmono, dict_set_keys. now right.
      * assert (Hl := dict_set_length s k v). simpl. lia.
      * intro Hs. now apply Hnd, dict_set_NoDup.
Qed.

(** Started on no responses, the loop returns at most one entry per key,
    each under a key it visited. *)
Lemma for_each_summary ids w s' w' :
  for_each body ids [] w = (Ret s', w') ->
  (length s' <= length ids)%nat
  /\ incl (dict_keys s') ids
  /\ NoDup (dict_keys s').
Proof.
  intro H. apply for_each_keys in H. destruct H as (Hsub & _ & Hlen & Hnd).
  repeat split.
  - simpl in Hlen. exact Hlen.
  - intros k Hk. destruct (Hsub _ Hk) as [[] | Hin]. exact Hin.
  - apply Hnd. constructor.
Qed.

(** Whether a key that occurs once has an entry at the end is decided in
    its own turn. *)
Lemma for_each_key_entry pre k post w s1 w1 s2 w2 s' w' :
  NoDup (pre ++ k :: post) ->
  for_each body pre [] w = (Ret s1, w1) ->
  body k s1 w1 = (Ret s2, w2) ->
  for_each body post s2 w2 = (Ret s', w') ->
  (s2 = s1 -> ~ In k (dict_keys s'))
  /\ ((exists v, s2 = dict_set s1 k v) -> In k (dict_keys s')).
Proof.
  intros Hnd Hpre Hk Hpost.
  apply NoDup_remove_2 in Hnd.
  apply for_each_keys in Hpre. destruct Hpre as (Hsub1 & _).
  apply for_each_keys in Hpost. destruct Hpost as (Hsub2 & Hmono2 & _).
  split.
  - intros -> Hin. apply Hnd, in_or_app.
    destruct (Hsub2 _ Hin) as [Hin1 | Hin2]; [|now right].
    destruct (Hsub1 _ Hin1) as [[] | Hin1']. now left.
  - intros [v ->]. apply Hmono2, dict_set_keys. now left.
Qed.

End LoopProperties.

(** ** The two sweeps *)

(** Inversion of one monadic step in a hypothesis. *)
Ltac step_in H :=
  match type of H with
  | context [match ?m ?w with (_, _) => _ end] =>
      let r := fresh "r" in
      let w1 := fresh "w" in
      let Hm := fresh "Hm" in
      destruct (m w) as [r w1] eqn:Hm; destruct r; simpl in H
  | context [match ?r with Ret _ => _ | Raise _ => _ end] =>
      let Hm := fresh "Hr" in
      destruct r eqn:Hm; simpl in H
  end.

Ltac unfold_monad_in H :=
  unfold bind, ret, raise, lift, try_except, uncaught in H; simpl in H.

Section SweepProperties.

Variable rasa_version : string.
Variable DOCS_BASE_URL : string.
Variable World : Type.
Variable OutputChannel : Type.
Variable CollectingOutputChannel : OutputChannel.
Variable Tracker : Type.
Variable get_latest_input_channel : Tracker -> option string.
Variable has_tracker_store : bool.
Variable store_keys : M World pyexn (list string).
Variable get_or_create_tracker : string -> M World pyexn Tracker.
Variable init_tracker : string -> M World pyexn Tracker.
Variable SlotValue : Type.
Variable slot_eqb : option SlotValue -> option SlotValue -> bool.
Variable get_slot : Tracker -> string -> result pyexn (option SlotValue).
Variable handle_text :
  option string -> OutputChannel -> string -> M World pyexn unit.
Variable Hint : Type.
Variable execute_action :
  string -> option string -> OutputChannel -> option Hint -> option Hint ->
  M World pyexn unit.
Variable EventVerbosity : Type.
Variable State : Type.
Variable Timestamp : Type.
Variable Dialogue : Type.
Variable current_state : Tracker -> EventVerbosity -> result pyexn State.
Variable latest_event_time : State -> result pyexn Timestamp.
Variable as_dialogue : Tracker -> result pyexn Dialogue.
Variable recreate_from_dialogue : Tracker -> Dialogue -> result pyexn Tracker.
Variable utcfromtimestamp : Timestamp -> result pyexn datetime.
Variable utcnow : World -> datetime.
Variable EventVerbosity_members : list EventVerbosity.
Variable verbosity_name : EventVerbosity -> string.
Variable EventVerbosity_item : string -> option EventVerbosity.
Variable AFTER_RESTART APPLIED : EventVerbosity.
Variable upper : string -> string.

Variable request : Request OutputChannel.
Variable condition_params : ConditionParams SlotValue.
Variable resume_params : ResumeParams Hint.

Local Abbreviation keys_of_store :=
  (retrieve_keys rasa_version has_tracker_store store_keys).
Local Abbreviation holds_for :=
  (condition_holds get_or_create_tracker slot_eqb get_slot condition_params).
Local Abbreviation dispatch_to :=
  (dispatch_message CollectingOutputChannel get_latest_input_channel
     handle_text request condition_params).
Local Abbreviation dispatch_turn :=
  (condition_body CollectingOutputChannel get_latest_input_channel
     get_or_create_tracker slot_eqb get_slot handle_text
     request condition_params).
Local Abbreviation dispatch_failure := (condition_except rasa_version).
Local Abbreviation dispatch_sweep :=
  (handle_message_w_condition rasa_version CollectingOutputChannel
     get_latest_input_channel has_tracker_store store_keys
     get_or_create_tracker slot_eqb get_slot handle_text
     request condition_params).
Local Abbreviation stale_for :=
  (stale_holds get_or_create_tracker init_tracker current_state
     latest_event_time as_dialogue recreate_from_dialogue utcfromtimestamp
     resume_params).
Local Abbreviation trigger_for :=
  (trigger_action CollectingOutputChannel get_latest_input_channel
     execute_action request resume_params).
Local Abbreviation resume_failure := (resume_except rasa_version).
Local Abbreviation resume_turn :=
  (resume_body rasa_version CollectingOutputChannel get_latest_input_channel
     get_or_create_tracker init_tracker execute_action current_state
     latest_event_time as_dialogue recreate_from_dialogue utcfromtimestamp
     request resume_params).
Local Abbreviation resume_keys :=
  (resume_loop rasa_version CollectingOutputChannel get_latest_input_channel
     get_or_create_tracker init_tracker execute_action current_state
     latest_event_time as_dialogue recreate_from_dialogue utcfromtimestamp
     request resume_params).
Local Abbreviation verbosity_of :=
  (event_verbosity_parameter rasa_version EventVerbosity_members
     verbosity_name EventVerbosity_item upper request
     (if negb (resume_force_update resume_params) then AFTER_RESTART
      else APPLIED)).
Local Abbreviation resume_sweep :=
  (trigger_resume_inactive_conv rasa_version CollectingOutputChannel
     get_latest_input_channel has_tracker_store store_keys
     get_or_create_tracker init_tracker execute_action current_state
     latest_event_time as_dialogue recreate_from_dialogue utcfromtimestamp
     utcnow EventVerbosity_members verbosity_name EventVerbosity_item
     AFTER_RESTART APPLIED upper request resume_params).

(** *** One turn of each loop *)

Lemma dispatch_message_Ret id sid tracker responses w s' w' :
  dispatch_to id sid tracker responses w = (Ret s', w') ->
  exists v, s' = dict_set responses id v.
Proof.
  unfold dispatch_message. intro H. unfold_monad_in H.
  repeat step_in H; try discriminate H.
  injection H as <- _. eexists. reflexivity.
Qed.

Lemma dispatch_turn_Ret id responses w s' w' :
  dispatch_turn id responses w = (Ret s', w') ->
  exists sid tracker holds w1,
    holds_for id w = (Ret (sid, tracker, holds), w1)
    /\ ((holds = false /\ s' = responses /\ w' = w1)
        \/ (holds = true
            /\ dispatch_to id sid tracker responses w1 = (Ret s', w'))).
Proof.
  unfold condition_body. intro H. unfold bind at 1 in H.
  destruct (holds_for id w) as [[[[sid tracker] holds]|e] w1];
    [|discriminate H].
  exists sid, tracker, holds, w1. split; [reflexivity|].
  destruct holds.
  - right. now split.
  - left. injection H as <- <-. now repeat split.
Qed.

Lemma dispatch_turn_sets_own_key id responses w s' w' :
  dispatch_turn id responses w = (Ret s', w') ->
  s' = responses \/ exists v, s' = dict_set responses id v.
Proof.
  intro H. apply dispatch_turn_Ret in H.
  destruct H as (sid & tracker & holds & w1 & _ & [(_ & -> & _) | (_ & H)]).
  - now left.
  - right. eapply dispatch_message_Ret. exact H.
Qed.

Lemma trigger_action_Ret id tracker responses w s' w' :
  trigger_for id tracker responses w = (Ret s', w') ->
  s' = dict_set responses id (VStr "Action trigger sent").
Proof.
  unfold trigger_action. intro H. unfold_monad_in H.
  repeat step_in H; try discriminate H.
  now injection H as <- _.
Qed.

Lemma resume_turn_Ret v ct id responses w s' w' :
  resume_turn v ct id responses w = (Ret s', w') ->
  exists tracker holds w1,
    stale_for v ct id w = (Ret (tracker, holds), w1)
    /\ ((holds = false /\ s' = responses /\ w' = w1)
        \/ (holds = true
            /\ trigger_for id tracker responses w1 = (Ret s', w'))).
Proof.
  unfold resume_body. intro H. unfold bind at 1, uncaught, try_except at 1 in H.
  destruct (stale_for v ct id w) as [[[tracker holds]|e] w1];
    [|discriminate H].
  exists tracker, holds, w1. split; [reflexivity|].
  destruct holds.
  - right. split; [reflexivity|]. unfold try_except in H.
    destruct (trigger_for id tracker responses w1) as [[s1|e] w2];
      [|discriminate H].
    now injection H as <- <-.
  - left. injection H as <- <-. now repeat split.
Qed.

Lemma resume_turn_Raise v ct id responses w r w' :
  resume_turn v ct id responses w = (Raise r, w') ->
  (exists e, stale_for v ct id w = (Raise e, w') /\ r = Uncaught e)
  \/ (exists tracker w1 e,
         stale_for v ct id w = (Ret (tracker, true), w1)
         /\ trigger_for id tracker responses w1 = (Raise e, w')
         /\ r = resume_failure e).
Proof.
  unfold resume_body. intro H. unfold bind at 1, uncaught, try_except at 1 in H.
  destruct (stale_for v ct id w) as [[[tracker holds]|e] w1].
  - destruct holds; [|discriminate H]. right. unfold try_except in H.
    destruct (trigger_for id tracker responses w1) as [[s1|e] w2] eqn:Ht;
      [discriminate H|].
    injection H as <- <-. now exists tracker, w1, e.
  - injection H as <- <-. left. now exists e.
Qed.

Lemma resume_turn_sets_own_key v ct id responses w s' w' :
  resume_turn v ct id responses w = (Ret s', w') ->
  s' = responses \/ exists val, s' = dict_set responses id val.
Proof.
  intro H. apply resume_turn_Ret in H.
  destruct H as (tracker & holds & w1 & _ & [(_ & -> & _) | (_ & H)]).
  - now left.
  - right. apply trigger_action_Ret in H. eexists. exact H.
Qed.

(** *** The handlers around the loops *)


Lemma dispatch_sweep_run w0 ids w :
  keys_of_store w0 = (Ret ids, w) ->
  dispatch_sweep w0
  = match for_each dispatch_turn ids [] w with
    | (Ret final, w') => (Ret (response_json final 200), w')
    | (Raise e, w') => (Raise (dispatch_failure e), w')
    end.
Proof.
  intro Hkeys. unfold handle_message_w_condition.
  unfold bind at 1. rewrite Hkeys.
  unfold bind, try_except, ret.
  now destruct (for_each dispatch_turn ids [] w) as [[final|e] w'].
Qed.

Lemma resume_sweep_run w0 v ids w :
  verbosity_of = Ret v ->
  keys_of_store w0 = (Ret ids, w) ->
  resume_sweep w0
  = match resume_keys v (utcnow w) ids w with
    | (Ret final, w') => (Ret (response_json final 200), w')
    | (Raise r, w') => (Raise r, w')
    end.
Proof.
  intros Hv Hkeys. unfold trigger_resume_inactive_conv.
  unfold bind at 1, try_except, lift. rewrite Hv.
  unfold bind at 1. rewrite Hkeys.
  unfold bind, ret.
  now destruct (resume_keys v (utcnow w) ids w) as [[final|e] w'].
Qed.

Lemma dispatch_failure_status e :
  exists er,
    dispatch_failure e = ErrorResponseExn er
    /\ well_formed er
    /\ status er = (if isinstance_ValueError e then 400 else 500)
    /\ reason_of er
       = Some (VStr (if isinstance_ValueError e then "ValueError"
                     else "ActionException")).
Proof.
  unfold condition_except. destruct (isinstance_ValueError e);
    eexists; (split; [reflexivity|]); split;
    try apply envelope_well_formed; split; reflexivity.
Qed.

Lemma resume_failure_status e :
  exists er,
    resume_failure e = ErrorResponseExn er
    /\ well_formed er
    /\ status er = (if isinstance_ValueError e then 400 else 500)
    /\ reason_of er = Some (VStr "ValueError").
Proof.
  unfold resume_except. destruct (isinstance_ValueError e);
    eexists; (split; [reflexivity|]); split;
    try apply envelope_well_formed; split; reflexivity.
Qed.

(** C1 (amended).  A failure in the turn of one key is not isolated: the
    sweep ends at that key, no later key is visited (the state returned is
    the one the failing turn left) and the request fails as a whole.  The
    conditional dispatch answers 400 [ValueError] when the failure is a
    [ValueError] and 500 [ActionException] otherwise.  The resumption
    sweep answers 400 or 500, both with the reason [ValueError], when the
    action fails, and lets a failure of the staleness test through as it
    is. *)
Theorem sweep_aborts_at_first_failure (pre : list string) (k : string)
        (post : list string) :
  (forall w0 w responses w1 e w2,
      keys_of_store w0 = (Ret (pre ++ k :: post), w) ->
      for_each dispatch_turn pre [] w = (Ret responses, w1) ->
      dispatch_turn k responses w1 = (Raise e, w2) ->
      dispatch_sweep w0 = (Raise (dispatch_failure e), w2)
      /\ exists er,
          dispatch_failure e = ErrorResponseExn er
          /\ status er = (if isinstance_ValueError e then 400 else 500)
          /\ reason_of er
             = Some (VStr (if isinstance_ValueError e then "ValueError"
                           else "ActionException")))
  /\ (forall w0 v w responses w1 r w2,
         verbosity_of = Ret v ->
         keys_of_store w0 = (Ret (pre ++ k :: post), w) ->
         for_each (resume_turn v (utcnow w)) pre [] w = (Ret responses, w1) ->
         resume_turn v (utcnow w) k responses w1 = (Raise r, w2) ->
         resume_sweep w0 = (Raise r, w2)
         /\ ((exists e,
                 stale_for v (utcnow w) k w1 = (Raise e, w2)
                 /\ r = Uncaught e)
             \/ (exists tracker w1' e er,
                    stale_for v (utcnow w) k w1 = (Ret (tracker, true), w1')
                    /\ trigger_for k tracker responses w1' = (Raise e, w2)
                    /\ r = ErrorResponseExn er
                    /\ status er
                       = (if isinstance_ValueError e then 400 else 500)
                    /\ reason_of er = Some (VStr "ValueError")))).
Proof.
  split.
  - intros w0 w responses w1 e w2 Hkeys Hpre Hk. split.
    + rewrite (dispatch_sweep_run _ Hkeys).
      now rewrite (for_each_stops _ _ _ post _ _ Hpre Hk).
    + destruct (dispatch_failure_status e) as (er & H1 & _ & H2 & H3).
      now exists er.
  - intros w0 v w responses w1 r w2 Hv Hkeys Hpre Hk. split.
    + rewrite (resume_sweep_run _ Hv Hkeys). unfold resume_loop.
      now rewrite (for_each_stops _ _ _ post _ _ Hpre Hk).
    + apply resume_turn_Raise in Hk.
      destruct Hk as [(e & He & ->) | (tracker & w1' & e & Hs & Ht & ->)].
      * left. now exists e.
      * right. destruct (resume_failure_status e) as (er & H1 & _ & H2 & H3).
        now exists tracker, w1', e, er.
Qed.

(** C7 (amended).  When a sweep over keys that occur once each returns,
    the collection it returns holds an entry for a key exactly when the
    test of that key held (or force-update was set) in its turn; a key
    whose test did not hold is left out.  So the collection has at most
    one entry per key, each under an enumerated key, and can be shorter
    than the key sequence. *)
Theorem responses_hold_triggered_keys_only (pre : list string) (k : string)
        (post : list string) :
  NoDup (pre ++ k :: post) ->
  (forall w0 w resp w',
      keys_of_store w0 = (Ret (pre ++ k :: post), w) ->
      dispatch_sweep w0 = (Ret resp, w') ->
      exists final responses w1 sid tracker holds w2,
        resp = response_json final 200
        /\ for_each dispatch_turn pre [] w = (Ret responses, w1)
        /\ holds_for k w1 = (Ret (sid, tracker, holds), w2)
        /\ (In k (dict_keys final) <-> holds = true)
        /\ (length final <= length (pre ++ k :: post))%nat
        /\ incl (dict_keys final) (pre ++ k :: post)
        /\ NoDup (dict_keys final))
  /\ (forall w0 v w resp w',
         verbosity_of = Ret v ->
         keys_of_store w0 = (Ret (pre ++ k :: post), w) ->
         resume_sweep w0 = (Ret resp, w') ->
         exists final responses w1 tracker holds w2,
           resp = response_json final 200
           /\ for_each (resume_turn v (utcnow w)) pre [] w
              = (Ret responses, w1)
           /\ stale_for v (utcnow w) k w1 = (Ret (tracker, holds), w2)
           /\ (In k (dict_keys final) <-> holds = true)
           /\ (length final <= length (pre ++ k :: post))%nat
           /\ incl (dict_keys final) (pre ++ k :: post)
           /\ NoDup (dict_keys final)).
Proof.
  intro Hnd. split.
  - intros w0 w resp w' Hkeys Hrun.
    rewrite (dispatch_sweep_run _ Hkeys) in Hrun.
    destruct (for_each dispatch_turn (pre ++ k :: post) [] w)
      as [[final|e] w1'] eqn:Hloop; [|discriminate Hrun].
    injection Hrun as <- <-.
    destruct (for_each_summary _ dispatch_turn_sets_own_key _ _ Hloop)
      as (Hlen & Hincl & Hnodup).
    apply for_each_ret_inv in Hloop.
    destruct Hloop as (s1 & w1 & s2 & w2 & Hpre & Hk & Hpost).
    destruct (for_each_key_entry _ dispatch_turn_sets_own_key
                _ _ _ _ Hnd Hpre Hk Hpost) as (Hout & Hin).
    apply dispatch_turn_Ret in Hk.
    destruct Hk as (sid & tracker & holds & w3 & Hholds & Hcase).
    exists final, s1, w1, sid, tracker, holds, w3.
    repeat split; try assumption.
    + intro H. destruct Hcase as [(_ & -> & _) | (-> & _)];
        [now apply Hout in H | reflexivity].
    + intros ->. destruct Hcase as [(Hf & _) | (_ & Hd)]; [discriminate Hf|].
      apply Hin. eapply dispatch_message_Ret. exact Hd.
  - intros w0 v w resp w' Hv Hkeys Hrun.
    rewrite (resume_sweep_run _ Hv Hkeys) in Hrun. unfold resume_loop in Hrun.
    destruct (for_each (resume_turn v (utcnow w)) (pre ++ k :: post) [] w)
      as [[final|e] w1'] eqn:Hloop; [|discriminate Hrun].
    injection Hrun as <- <-.
    destruct (for_each_summary _ (resume_turn_sets_own_key v (utcnow w))
                _ _ Hloop) as (Hlen & Hincl & Hnodup).
    apply for_each_ret_inv in Hloop.
    destruct Hloop as (s1 & w1 & s2 & w2 & Hpre & Hk & Hpost).
    destruct (for_each_key_entry _ (resume_turn_sets_own_key v (utcnow w))
                _ _ _ _ Hnd Hpre Hk Hpost) as (Hout & Hin).
    apply resume_turn_Ret in Hk.
    destruct Hk as (tracker & holds & w3 & Hholds & Hcase).
    exists final, s1, w1, tracker, holds, w3.
    repeat split; try assumption.
    + intro H. destruct Hcase as [(_ & -> & _) | (-> & _)];
        [now apply Hout in H | reflexivity].
    + intros ->. destruct Hcase as [(Hf & _) | (_ & Hd)]; [discriminate Hf|].
      apply Hin. apply trigger_action_Ret in Hd. eexists. exact Hd.
Qed.

(** *** The staleness test inside the sweep *)

Lemma stale_for_Ret v ct id w tracker holds w' :
  stale_for v ct id w = (Ret (tracker, holds), w') ->
  exists old w1 st ts last,
    get_or_create_tracker id w = (Ret old, w1)
    /\ current_state old v = Ret st
    /\ latest_event_time st = Ret ts
    /\ utcfromtimestamp ts = Ret last
    /\ holds = resume_force_update resume_params
               || compare_utcdatetime_with_timegap ct last seconds_in_a_day.
Proof.
  unfold stale_holds. intro H. unfold_monad_in H.
  destruct (get_or_create_tracker id w) as [[old|e] w1] eqn:Hold;
    [|discriminate H].
  destruct (current_state old v) as [st|e] eqn:Hst; [|discriminate H].
  destruct (as_dialogue old) as [dialogue|e]; [|discriminate H].
  destruct (init_tracker id w1) as [[fresh|e] w2]; [|discriminate H].
  destruct (recreate_from_dialogue fresh dialogue) as [rebuilt|e];
    [|discriminate H].
  destruct (latest_event_time st) as [ts|e] eqn:Hts; [|discriminate H].
  destruct (utcfromtimestamp ts) as [last|e] eqn:Hlast; [|discriminate H].
  injection H as _ <- _.
  now exists old, w1, st, ts, last.
Qed.



(** *** Keys without a phone number *)

Lemma holds_for_Ret id w sid tracker holds w' :
  holds_for id w = (Ret (sid, tracker, holds), w') ->
  sender_id_of_key id = Ret sid
  /\ get_or_create_tracker sid w = (Ret tracker, w').
Proof.
  unfold condition_holds. intro H. unfold_monad_in H.
  destruct (sender_id_of_key id) as [sid'|e]; [|discriminate H].
  destruct (get_or_create_tracker sid' w) as [[tracker'|e] w1] eqn:Ht;
    [|discriminate H].
  destruct (get_slot tracker' (slot_name condition_params)) as [value|e];
    [|discriminate H].
  injection H as -> -> _ ->. now split.
Qed.

Lemma dispatch_turn_bad_key id responses w e :
  sender_id_of_key id = Raise e ->
  dispatch_turn id responses w = (Raise e, w).
Proof.
  intro H. unfold condition_body, condition_holds.
  unfold bind, lift. now rewrite H.
Qed.

(** C9 (amended).  In the conditional dispatch every key is decoded as
    UTF-8 and the tracker is looked up under the first substring of the
    text that matches [\+[0-9]+]: the leftmost plus sign with a digit
    after it, and the digits that follow.  When the sweep reaches a key that is
    valid UTF-8 and holds no such substring, taking the first match fails
    and the whole request fails with 500 [ActionException]; when it
    reaches a key that is not valid UTF-8, the request fails with 400
    [ValueError].  In both cases no responses are returned and no later
    key is visited. *)
Theorem key_without_phone_fails_sweep (pre : list string) (k : string)
        (post : list string) :
  (forall id w sid tracker holds w',
      holds_for id w = (Ret (sid, tracker, holds), w') ->
      utf8_valid id = true
      /\ (exists more, findall_phone id = sid :: more)
      /\ get_or_create_tracker sid w = (Ret tracker, w'))
  /\ (forall before d ds rest,
         let id := (before ++ String "+" (String d ds) ++ rest)%string in
         utf8_valid id = true ->
         ~ contains_phone before ->
         is_digit d = true -> all_digits ds = true ->
         starts_with_digit rest = false ->
         sender_id_of_key id = Ret (String "+" (String d ds)))
  /\ (forall w0 w responses w1,
         keys_of_store w0 = (Ret (pre ++ k :: post), w) ->
         for_each dispatch_turn pre [] w = (Ret responses, w1) ->
         (utf8_valid k = true -> ~ contains_phone k ->
          dispatch_sweep w0
          = (Raise (ErrorResponseExn
                      (ErrorResponse_init rasa_version 500 "ActionException"
                         (VStr "Server failure. Error: list index out of range")
                         None None)), w1))
         /\ (utf8_valid k = false ->
             exists er,
               dispatch_sweep w0 = (Raise (ErrorResponseExn er), w1)
               /\ status er = 400
               /\ reason_of er = Some (VStr "ValueError"))).
Proof.
  split; [|split].
  - intros id w sid tracker holds w' H. apply holds_for_Ret in H.
    destruct H as [Hsid Htracker]. apply sender_id_of_key_Ret in Hsid.
    destruct Hsid as [Hvalid Hmatch]. now repeat split.
  - intros before d ds rest id Hvalid Hbefore Hd Hds Hrest.
    apply sender_id_of_key_Ret. split; [exact Hvalid|].
    now apply findall_phone_first_match.
  - intros w0 w responses w1 Hkeys Hpre. split.
    + intros Hvalid Hno.
      assert (Hk := dispatch_turn_bad_key k responses w1
                      (sender_id_of_key_no_phone Hvalid Hno)).
      rewrite (dispatch_sweep_run _ Hkeys).
      now rewrite (for_each_stops _ _ _ post _ _ Hpre Hk).
    + intro Hbad.
      destruct (sender_id_of_key_not_utf8 _ Hbad) as (e & He & Hval).
      assert (Hk := dispatch_turn_bad_key k responses w1 He).
      rewrite (dispatch_sweep_run _ Hkeys).
      rewrite (for_each_stops _ _ _ post _ _ Hpre Hk).
      destruct (dispatch_failure_status e) as (er & H1 & _ & H2 & H3).
      rewrite Hval in H2, H3. exists er. now rewrite H1.
Qed.

(** *** The envelope of the failures *)





(** *** Further properties of the sweeps *)

Lemma verbosity_of_failure e :
  verbosity_of = Raise e ->
  status e = 404
  /\ reason_of e = Some (VStr "InvalidParameter")
  /\ dict_get (error_info e) "details"
     = Some (VDict [("parameter", VStr "include_events");
                    ("in", VStr "query")]).
Proof.
  unfold event_verbosity_parameter.
  destruct (EventVerbosity_item _); [discriminate|].
  intro H. injection H as <-. split; [reflexivity|split; reflexivity].
Qed.

(** X5.  A store without keys: both sweeps answer 200 with an empty
    collection, and neither the agent nor a tracker is touched after the
    keys were read. *)
Theorem sweep_of_no_keys_is_empty w0 w :
  keys_of_store w0 = (Ret [], w) ->
  dispatch_sweep w0 = (Ret (response_json [] 200), w)
  /\ (forall v, verbosity_of = Ret v ->
                resume_sweep w0 = (Ret (response_json [] 200), w)).
Proof.
  intro Hkeys. split.
  - now rewrite (dispatch_sweep_run _ Hkeys).
  - intros v Hv. now rewrite (resume_sweep_run _ Hv Hkeys).
Qed.

(** X6.  Without a tracker store both sweeps fail with 503
    [NoTrackerStore] and leave the state of the agent as it was. *)
Theorem sweep_without_store_is_unavailable w0 :
  has_tracker_store = false ->
  dispatch_sweep w0
  = (Raise (ErrorResponseExn (NoTrackerStore rasa_version)), w0)
  /\ (forall v, verbosity_of = Ret v ->
                resume_sweep w0
                = (Raise (ErrorResponseExn (NoTrackerStore rasa_version)), w0))
  /\ status (NoTrackerStore rasa_version) = 503
  /\ reason_of (NoTrackerStore rasa_version) = Some (VStr "NoTrackerStore").
Proof.
  intro Hstore.
  assert (Hkeys : keys_of_store w0
                  = (Raise (ErrorResponseExn (NoTrackerStore rasa_version)),
                     w0)).
  { unfold retrieve_keys. now rewrite Hstore. }
  split; [|split; [|split; reflexivity]].
  - unfold handle_message_w_condition. unfold bind at 1. now rewrite Hkeys.
  - intros v Hv. unfold trigger_resume_inactive_conv.
    unfold bind at 1, try_except, lift. rewrite Hv.
    unfold bind at 1. now rewrite Hkeys.
Qed.

(** X7.  A value of [include_events] that names no verbosity makes the
    resumption sweep fail with 404 [InvalidParameter], the details naming
    the query parameter [include_events], before the keys are read: the
    state of the agent is as it was. *)
Theorem resume_checks_verbosity_first w0 e :
  verbosity_of = Raise e ->
  resume_sweep w0 = (Raise (ErrorResponseExn e), w0)
  /\ status e = 404
  /\ reason_of e = Some (VStr "InvalidParameter")
  /\ dict_get (error_info e) "details"
     = Some (VDict [("parameter", VStr "include_events");
                    ("in", VStr "query")]).
Proof.
  intro Hv. split; [|now apply verbosity_of_failure].
  unfold trigger_resume_inactive_conv.
  unfold bind at 1, try_except, lift. now rewrite Hv.
Qed.

(** Setting a key that has no entry yet puts the entry at the end. *)
Lemma dict_set_new (d : dict) k v :
  ~ In k (dict_keys d) -> dict_set d k v = d ++ [(k, v)].
Proof.
  induction d as [|[k0 v0] d IH]; simpl; intro Hno.
  - reflexivity.
  - destruct (String.eqb k0 k) eqn:Ek.
    + apply String.eqb_eq in Ek. exfalso. apply Hno. now left.
    + f_equal. apply IH. intro Hin. apply Hno. now right.
Qed.

Lemma resume_turn_forced v ct id responses w s' w' :
  resume_force_update resume_params = true ->
  resume_turn v ct id responses w = (Ret s', w') ->
  s' = dict_set responses id (VStr "Action trigger sent").
Proof.
  intros Hforce H. apply resume_turn_Ret in H.
  destruct H as (tracker & holds & w1 & Hstale & Hcase).
  apply stale_for_Ret in Hstale.
  destruct Hstale as (old & w2 & st & ts & last & _ & _ & _ & _ & ->).
  rewrite Hforce in Hcase. simpl in Hcase.
  destruct Hcase as [(Hf & _) | (_ & Ht)]; [discriminate Hf|].
  now apply trigger_action_Ret in Ht.
Qed.

Lemma resume_loop_forced v ct ids responses w s' w' :
  resume_force_update resume_params = true ->
  NoDup (dict_keys responses ++ ids) ->
  for_each (resume_turn v ct) ids responses w = (Ret s', w') ->
  s' = responses ++ map (fun k => (k, VStr "Action trigger sent")) ids.
Proof.
  intro Hforce. revert responses w.
  induction ids as [|k ids IH]; intros responses w Hnd H; simpl in H.
  - injection H as <- _. now rewrite app_nil_r.
  - unfold bind in H.
    destruct (resume_turn v ct k responses w) as [[s1|r] w1] eqn:Hk;
      [|discriminate H].
    apply (resume_turn_forced _ _ _ _ _ Hforce) in Hk.
    assert (Hnew : ~ In k (dict_keys responses)).
    { intro Hin. apply NoDup_remove_2 in Hnd. apply Hnd, in_or_app. now left. }
    rewrite dict_set_new in Hk by exact Hnew. subst s1.
    apply IH in H.
    + rewrite H, <- app_assoc. reflexivity.
    + unfold dict_keys. rewrite map_app. simpl. rewrite <- app_assoc.
      exact Hnd.
Qed.

(** X8.  With force-update set, a resumption sweep that returns (over
    keys enumerated once each) answers with one entry per key, in the
    order of the enumeration, each saying "Action trigger sent": the age
    of the conversations plays no part. *)
Theorem forced_resume_triggers_every_key w0 v ids w resp w' :
  resume_force_update resume_params = true ->
  NoDup ids ->
  verbosity_of = Ret v ->
  keys_of_store w0 = (Ret ids, w) ->
  resume_sweep w0 = (Ret resp, w') ->
  resp = response_json
           (map (fun k => (k, VStr "Action trigger sent")) ids) 200.
Proof.
  intros Hforce Hnd Hv Hkeys Hrun.
  rewrite (resume_sweep_run _ Hv Hkeys) in Hrun. unfold resume_loop in Hrun.
  destruct (for_each (resume_turn v (utcnow w)) ids [] w)
    as [[final|r] w1] eqn:Hloop; [|discriminate Hrun].
  injection Hrun as <- _.
  apply (resume_loop_forced _ _ _ _ _ Hforce) in Hloop; [|exact Hnd].
  now rewrite Hloop.
Qed.

(** An invariant of every entry is kept by a loop whose turns keep it. *)
Lemma dict_set_Forall (P : string * pyval -> Prop) (d : dict) k v :
  Forall P d -> P (k, v) -> (forall k0 v0, P (k0, v0) -> k0 = k -> P (k0, v)) ->
  Forall P (dict_set d k v).
Proof.
  intros Hd Hkv Hsame. induction Hd as [|[k0 v0] d H0 Hd IH]; simpl.
  - now constructor.
  - destruct (String.eqb k0 k) eqn:Ek.
    + apply String.eqb_eq in Ek. constructor; [|exact Hd].
      now apply (Hsame k0 v0).
    + now constructor.
Qed.

Lemma for_each_Forall (E : Type) (body : string -> dict -> M World E dict)
      (P : string * pyval -> Prop) :
  (forall k s w s' w',
      Forall P s -> body k s w = (Ret s', w') -> Forall P s') ->
  forall ids s w s' w',
    Forall P s -> for_each body ids s w = (Ret s', w') -> Forall P s'.
Proof.
  intros Hbody ids. induction ids as [|k ids IH]; intros s w s' w' Hs H;
    simpl in H.
  - now injection H as <- _.
  - unfold bind in H. destruct (body k s w) as [[s1|e] w1] eqn:Hk;
      [|discriminate H].
    eapply IH; [|exact H]. eapply Hbody; [exact Hs | exact Hk].
Qed.

Lemma dispatch_message_entry id sid tracker responses w s' w' :
  dispatch_to id sid tracker responses w = (Ret s', w') ->
  s' = dict_set responses id
         (VStr ("Message " ++ format_opt (message_to_handle condition_params)
                ++ " handle from id " ++ sid)%string).
Proof.
  unfold dispatch_message. intro H. unfold_monad_in H.
  repeat step_in H; try discriminate H.
  now injection H as <- _.
Qed.

(** X9.  Every entry of the collection the conditional dispatch returns
    is filed under a key of the store and says which message was handled
    and for which sender: the phone number taken from that key. *)
Theorem dispatch_entries_name_the_sender w0 resp w' :
  dispatch_sweep w0 = (Ret resp, w') ->
  exists ids w final,
    keys_of_store w0 = (Ret ids, w)
    /\ resp = response_json final 200
    /\ Forall (fun entry =>
                 In (fst entry) ids
                 /\ exists sid,
                     sender_id_of_key (fst entry) = Ret sid
                     /\ snd entry
                        = VStr ("Message "
                                ++ format_opt
                                     (message_to_handle condition_params)
                                ++ " handle from id " ++ sid)%string)
              final.
Proof.
  intro Hrun. destruct (keys_of_store w0) as [[ids|r] w] eqn:Hkeys.
  - rewrite (dispatch_sweep_run _ Hkeys) in Hrun.
    destruct (for_each dispatch_turn ids [] w) as [[final|e] w1] eqn:Hloop;
      [|discriminate Hrun].
    injection Hrun as <- _. exists ids, w, final.
    split; [reflexivity|]. split; [reflexivity|].
    destruct (for_each_summary _ dispatch_turn_sets_own_key _ _ Hloop)
      as (_ & Hincl & _).
    assert (Hentries :
              Forall (fun entry =>
                        exists sid,
                          sender_id_of_key (fst entry) = Ret sid
                          /\ snd entry
                             = VStr ("Message "
                                     ++ format_opt
                                          (message_to_handle condition_params)
                                     ++ " handle from id " ++ sid)%string)
                     final).
    { eapply for_each_Forall; [|apply Forall_nil|exact Hloop].
      intros k s w2 s' w3 Hs Hk. apply dispatch_turn_Ret in Hk.
      destruct Hk as (sid & tracker & holds & w4 & Hholds
                      & [(_ & -> & _) | (_ & Hd)]); [exact Hs|].
      apply holds_for_Ret in Hholds. destruct Hholds as [Hsid _].
      apply dispatch_message_entry in Hd. subst s'.
      apply dict_set_Forall; [exact Hs | now exists sid |].
      intros k0 v0 _ ->. now exists sid. }
    apply Forall_forall. intros [k v] Hin. split.
    + apply Hincl. unfold dict_keys. now apply (in_map fst) in Hin.
    + rewrite Forall_forall in Hentries. now apply (Hentries (k, v)).
  - unfold handle_message_w_condition in Hrun. unfold bind at 1 in Hrun.
    rewrite Hkeys in Hrun. discriminate Hrun.
Qed.


(** X11.  A value of [include_events] decides the verbosity alone: the
    default of the endpoint plays no part, and two spellings with the
    same upper-case form give the same answer.  The value is looked up by
    its upper-case form; one that names no verbosity fails with 404
    [InvalidParameter], the details naming the query parameter. *)
Theorem include_events_overrides_default
        (req : Request OutputChannel) (s : string) :
  raw_args_include_events req = Some s ->
  let parse := event_verbosity_parameter rasa_version EventVerbosity_members
                 verbosity_name EventVerbosity_item upper in
  (forall d1 d2, parse req d1 = parse req d2)
  /\ (forall req' s' d,
         raw_args_include_events req' = Some s' ->
         upper s' = upper s ->
         parse req' d = parse req d)
  /\ (forall v d, EventVerbosity_item (upper s) = Some v ->
                  parse req d = Ret v)
  /\ (forall d, EventVerbosity_item (upper s) = None ->
                exists e,
                  parse req d = Raise e
                  /\ status e = 404
                  /\ reason_of e = Some (VStr "InvalidParameter")
                  /\ dict_get (error_info e) "details"
                     = Some (VDict [("parameter", VStr "include_events");
                                    ("in", VStr "query")])).
Proof.
  intros Hs parse. unfold parse, event_verbosity_parameter.
  split; [|split; [|split]].
  - intros d1 d2. now rewrite Hs.
  - intros req' s' d Hs' Hup. now rewrite Hs, Hs', Hup.
  - intros v d Hv. now rewrite Hs, Hv.
  - intros d Hv. rewrite Hs, Hv. eexists. split; [reflexivity|].
    split; [reflexivity|split; reflexivity].
Qed.

Lemma verbosity_of_Raise_any (req : Request OutputChannel)
      (d : EventVerbosity) e :
  event_verbosity_parameter rasa_version EventVerbosity_members
    verbosity_name EventVerbosity_item upper req d = Raise e ->
  well_formed e.
Proof.
  unfold event_verbosity_parameter.
  destruct (EventVerbosity_item _); [discriminate|].
  intro H. injection H as <-. apply envelope_well_formed.
Qed.

Local Abbreviation execute_one :=
  (execute_action_endpoint rasa_version CollectingOutputChannel
     get_latest_input_channel get_or_create_tracker execute_action
     current_state EventVerbosity_members verbosity_name EventVerbosity_item
     AFTER_RESTART upper request resume_params).

Local Abbreviation verbosity_of_one :=
  (event_verbosity_parameter rasa_version EventVerbosity_members
     verbosity_name EventVerbosity_item upper request AFTER_RESTART).

(** X12.  Once the body of the request has been read as a JSON object,
    the endpoint that runs an action for one conversation lets no failure
    out as it is: whatever fails (the store, the choice of the output
    channel, the agent, the tracker) it answers with an [ErrorResponse],
    400 for a [ValueError] and 500 otherwise, or with the 404 of a wrong
    [include_events], which is checked before the store is touched.  When
    it returns, the state is that of the tracker fetched again after the
    action. *)
Theorem execute_action_wraps_every_failure sender_id w :
  (forall r w',
      execute_one sender_id w = (Raise r, w') ->
      exists er,
        r = ErrorResponseExn er /\ well_formed er
        /\ ((verbosity_of_one = Raise er /\ status er = 404 /\ w' = w)
            \/ (exists e, r = resume_failure e
                          /\ status er
                             = (if isinstance_ValueError e then 400
                                else 500))))
  /\ (forall state w',
         execute_one sender_id w = (Ret state, w') ->
         exists v before w1 oc w2 after,
           verbosity_of_one = Ret v
           /\ get_or_create_tracker sender_id w = (Ret before, w1)
           /\ execute_action sender_id (action_to_execute resume_params) oc
                (rp_policy resume_params) (rp_confidence resume_params) w1
              = (Ret tt, w2)
           /\ get_or_create_tracker sender_id w2 = (Ret after, w')
           /\ current_state after v = Ret state).
Proof.
  unfold execute_action_endpoint. split.
  - intros r w' H. unfold bind at 1, try_except at 1, lift at 1 in H.
    destruct verbosity_of_one as [v|ev] eqn:Hv.
    + unfold try_except in H.
      match type of H with
      | (let (_, _) := ?m w in _) = _ => destruct (m w) as [[st|e] w1]
      end; [discriminate H|].
      injection H as <- <-.
      destruct (resume_failure_status e) as (er & H1 & H2 & H3 & _).
      exists er. split; [exact H1|]. split; [exact H2|]. right. now exists e.
    + injection H as <- <-. exists ev. split; [reflexivity|].
      split; [exact (verbosity_of_Raise_any _ _ Hv)|]. left.
      split; [reflexivity|]. split; [|reflexivity].
      unfold event_verbosity_parameter in Hv.
      destruct (EventVerbosity_item _); [discriminate Hv|].
      now injection Hv as <-.
  - intros state w' H. unfold bind at 1, try_except at 1, lift at 1 in H.
    destruct verbosity_of_one as [v|ev] eqn:Hv; [|discriminate H].
    unfold try_except in H. unfold_monad_in H.
    destruct (get_or_create_tracker sender_id w) as [[before|e] w1] eqn:H1;
      [|discriminate H].
    destruct (_get_output_channel CollectingOutputChannel
                get_latest_input_channel request (Some before))
      as [oc|e] eqn:Hoc; [|discriminate H].
    destruct (execute_action sender_id (action_to_execute resume_params) oc
                (rp_policy resume_params) (rp_confidence resume_params) w1)
      as [[[]|e] w2] eqn:H2; [|discriminate H].
    destruct (get_or_create_tracker sender_id w2) as [[after|e] w3] eqn:H3;
      [|discriminate H].
    destruct (current_state after v) as [st|e] eqn:H4; [|discriminate H].
    injection H as <- <-.
    now exists v, before, w1, oc, w2, after.
Qed.

End SweepProperties.

(** ** The properties on the small deployment *)

Lemma user_granted_iff_owner_witness :
  Demo.gate (Some true) None Demo.alice_request [] [("sender_id", "alice")]
  = Dispatched "handled"
  /\ Demo.gate (Some true) None Demo.alice_request [] [("sender_id", "bob")]
     = Rejected (NotAuthorized Demo.version Demo.docs)
  /\ Demo.gate (Some true) None Demo.alice_request [] []
     = Rejected (NotAuthorized Demo.version Demo.docs).
Proof.
  split; [|split].
  - apply (proj1 (user_granted_iff_owner Demo.version Demo.docs (Some true)
                    None Demo.handler Demo.argnames Demo.alice_request []
                    [("sender_id", "alice")] eq_refl eq_refl eq_refl)).
    exists "alice". split; reflexivity.
  - apply (proj1 (proj2 (user_granted_iff_owner Demo.version Demo.docs
                           (Some true) None Demo.handler Demo.argnames
                           Demo.alice_request [] [("sender_id", "bob")]
                           eq_refl eq_refl eq_refl))).
    intros [s [Hs Hu]]. cbv in Hs, Hu. congruence.
  - apply (proj1 (proj2 (proj2 (user_granted_iff_owner Demo.version Demo.docs
                                  (Some true) None Demo.handler Demo.argnames
                                  Demo.alice_request [] []
                                  eq_refl eq_refl eq_refl)))).
    reflexivity.
Defined.

Lemma shared_secret_grants_witness :
  Demo.gate (Some true) (Some "s3cret") Demo.secret_request
    [] [("sender_id", "bob")]
  = Dispatched "handled".
Proof.
  apply (shared_secret_grants Demo.version Demo.docs (Some true) Demo.handler
           Demo.argnames Demo.secret_request [] [("sender_id", "bob")]
           eq_refl eq_refl).
Defined.

Lemma disabled_auth_grants_witness :
  Demo.gate None None Demo.request [] [("sender_id", "bob")]
  = Dispatched "handled"
  /\ map (fun request => Demo.gate None None request [] [])
         [Demo.request; Demo.request; Demo.alice_request]
     = [Dispatched "handled"; Dispatched "handled"; Dispatched "handled"].
Proof.
  split.
  - apply (proj1 (disabled_auth_grants Demo.version Demo.docs Demo.handler
                    Demo.argnames eq_refl eq_refl)).
  - apply (proj2 (disabled_auth_grants Demo.version Demo.docs Demo.handler
                    Demo.argnames eq_refl eq_refl)
             [Demo.request; Demo.request; Demo.alice_request]).
Defined.

Lemma unmatched_is_unauthenticated_witness :
  Demo.gate None (Some "s3cret") Demo.request [] []
  = Rejected (NotAuthenticated Demo.version Demo.docs)
  /\ Demo.gate (Some true) None Demo.request [] []
     = Rejected (NotAuthenticated Demo.version Demo.docs).
Proof.
  split.
  - apply (proj1 (proj2 (unmatched_is_unauthenticated Demo.version Demo.docs
                           None (Some "s3cret") Demo.handler Demo.argnames
                           Demo.request [] []))
             "s3cret" eq_refl).
    + discriminate.
    + reflexivity.
  - apply (proj1 (proj2 (proj2 (unmatched_is_unauthenticated
                                  Demo.version Demo.docs (Some true) None
                                  Demo.handler Demo.argnames
                                  Demo.request [] [])))
             eq_refl eq_refl eq_refl).
Defined.


(** C1, as stated, fails.  The store holds A, B and C, all three stale,
    and the action fails for B: the resumption answers with a 500 error
    and no outcomes, and C is never visited (the agent has acted for A
    only).  Likewise the conditional dispatch over three keys whose second
    message is rejected answers with a 400 error. *)
Lemma sweep_does_not_isolate_failure :
  Demo.resume ["A"; "B"; "C"] []
  = (Raise (ErrorResponseExn
              (ErrorResponse_init Demo.version 500 "ValueError"
                 (VStr "Server failure. Error: action failed") None None)),
     ["A"])
  /\ (forall resp w, Demo.resume ["A"; "B"; "C"] [] <> (Ret resp, w))
  /\ Demo.dispatch ["+1"; "+666"; "+2"] []
     = (Raise (ErrorResponseExn
                 (ErrorResponse_init Demo.version 400 "ValueError"
                    (VExn (ValueError "message rejected")) None None)),
        ["+1"])
  /\ (forall resp w, Demo.dispatch ["+1"; "+666"; "+2"] [] <> (Ret resp, w)).
Proof.
  split; [reflexivity|]. split; [intros resp w H; discriminate H|].
  split; [reflexivity|]. intros resp w H; discriminate H.
Qed.

Lemma sweep_aborts_at_first_failure_witness :
  Demo.resume ["A"; "B"; "C"] []
  = (Raise (ErrorResponseExn
              (ErrorResponse_init Demo.version 500 "ValueError"
                 (VStr "Server failure. Error: action failed") None None)),
     ["A"])
  /\ Demo.dispatch ["+1"; "+666"; "+2"] []
     = (Raise (ErrorResponseExn
                 (ErrorResponse_init Demo.version 400 "ValueError"
                    (VExn (ValueError "message rejected")) None None)),
        ["+1"]).
Proof.
  split.
  - apply (proj1 (proj2 (sweep_aborts_at_first_failure Demo.version
             "collector" Demo.latest_channel true (ret ["A"; "B"; "C"])
             Demo.get_or_create_tracker Demo.init_tracker opt_str_eqb
             Demo.get_slot Demo.handle_text Demo.execute_action
             Demo.current_state Demo.latest_event_time Demo.as_dialogue
             Demo.recreate_from_dialogue Demo.utcfromtimestamp Demo.utcnow
             Demo.members Demo.verbosity_name Demo.EventVerbosity_item
             Demo.AFTER_RESTART Demo.APPLIED Demo.upper Demo.request
             Demo.condition_params Demo.resume_params ["A"] "B" ["C"])
             [] Demo.AFTER_RESTART [] [("A", VStr "Action trigger sent")]
             ["A"] _ ["A"] eq_refl eq_refl eq_refl eq_refl)).
  - apply (proj1 (proj1 (sweep_aborts_at_first_failure Demo.version
             "collector" Demo.latest_channel true (ret ["+1"; "+666"; "+2"])
             Demo.get_or_create_tracker Demo.init_tracker opt_str_eqb
             Demo.get_slot Demo.handle_text Demo.execute_action
             Demo.current_state Demo.latest_event_time Demo.as_dialogue
             Demo.recreate_from_dialogue Demo.utcfromtimestamp Demo.utcnow
             Demo.members Demo.verbosity_name Demo.EventVerbosity_item
             Demo.AFTER_RESTART Demo.APPLIED Demo.upper Demo.request
             Demo.condition_params Demo.resume_params ["+1"] "+666" ["+2"])
             [] [] [("+1", VStr "Message hello handle from id +1")]
             ["+1"] (ValueError "message rejected") ["+1"]
             eq_refl eq_refl eq_refl)).
Defined.

(** C7, as stated, fails.  The store holds A (stale) and "fresh" (last
    event 1000 seconds before the sweep): the sweep returns one entry for
    two keys, and "fresh" has no entry at all. *)
Lemma skipped_key_is_omitted :
  exists final,
    Demo.resume ["A"; "fresh"] [] = (Ret (response_json final 200), ["A"])
    /\ final = [("A", VStr "Action trigger sent")]
    /\ length final <> length ["A"; "fresh"]
    /\ dict_get final "fresh" = None.
Proof.
  exists [("A", VStr "Action trigger sent")].
  split; [reflexivity|]. split; [reflexivity|]. split; [discriminate|reflexivity].
Qed.

Lemma responses_hold_triggered_keys_only_witness :
  exists final,
    Demo.resume ["A"; "fresh"] [] = (Ret (response_json final 200), ["A"])
    /\ ~ In "fresh" (dict_keys final)
    /\ (length final <= 2)%nat.
Proof.
  assert (Hnd : NoDup (["A"] ++ "fresh" :: [])).
  { repeat constructor; simpl; intuition discriminate. }
  destruct (proj2 (responses_hold_triggered_keys_only Demo.version
             "collector" Demo.latest_channel true (ret ["A"; "fresh"])
             Demo.get_or_create_tracker Demo.init_tracker opt_str_eqb
             Demo.get_slot Demo.handle_text Demo.execute_action
             Demo.current_state Demo.latest_event_time Demo.as_dialogue
             Demo.recreate_from_dialogue Demo.utcfromtimestamp Demo.utcnow
             Demo.members Demo.verbosity_name Demo.EventVerbosity_item
             Demo.AFTER_RESTART Demo.APPLIED Demo.upper Demo.request
             Demo.condition_params Demo.resume_params
             ["A"] "fresh" [] Hnd)
             [] Demo.AFTER_RESTART []
             (response_json [("A", VStr "Action trigger sent")] 200) ["A"]
             eq_refl eq_refl eq_refl)
    as (final & responses & w1 & tracker & holds & w2
        & Hresp & Hpre & Hstale & Hiff & Hlen & _).
  exists final. injection Hresp as <-. split; [reflexivity|].
  injection Hpre as <- <-. injection Hstale as _ <- _.
  split; [|exact Hlen].
  intro Hin. apply Hiff in Hin. discriminate Hin.
Defined.

(** C9, as stated, fails.  Neither key of the store holds a plus sign
    followed by a digit; the first is not UTF-8, so decoding it raises a
    [UnicodeDecodeError], which is a [ValueError]: the request fails with
    400 [ValueError], not with 500 [ActionException]. *)
Lemma key_without_phone_can_fail_with_400 :
  ~ contains_phone Demo.not_utf8
  /\ ~ contains_phone "abc"
  /\ Demo.dispatch [Demo.not_utf8; "abc"] []
     = (Raise (ErrorResponseExn
                 (ErrorResponse_init Demo.version 400 "ValueError"
                    (VExn (UnicodeDecodeError
                             "'utf-8' codec can't decode bytes"))
                    None None)),
        [])
  /\ (forall message details help_url w,
         Demo.dispatch [Demo.not_utf8; "abc"] []
         <> (Raise (ErrorResponseExn
                      (ErrorResponse_init Demo.version 500 "ActionException"
                         message details help_url)), w)).
Proof.
  split; [apply findall_phone_empty; reflexivity|].
  split; [apply findall_phone_empty; reflexivity|].
  split; [reflexivity|].
  intros message details help_url w H. discriminate H.
Qed.

Lemma key_without_phone_fails_sweep_witness :
  Demo.dispatch ["+33612"; "abc"; "+33613"] []
  = (Raise (ErrorResponseExn
              (ErrorResponse_init Demo.version 500 "ActionException"
                 (VStr "Server failure. Error: list index out of range")
                 None None)),
     ["+33612"]).
Proof.
  apply (proj1 (proj2 (proj2 (key_without_phone_fails_sweep Demo.version
           "collector" Demo.latest_channel true
           (ret ["+33612"; "abc"; "+33613"])
           Demo.get_or_create_tracker opt_str_eqb Demo.get_slot
           Demo.handle_text Demo.request Demo.condition_params
           ["+33612"] "abc" ["+33613"]))
           [] [] [("+33612", VStr "Message hello handle from id +33612")]
           ["+33612"] eq_refl eq_refl)
           eq_refl (proj1 (findall_phone_empty "abc") eq_refl)).
Defined.



(** ** More on the staleness test and on the keys *)


Lemma all_digits_snoc (ds : string) (c : ascii) :
  all_digits ds = true -> is_digit c = true ->
  all_digits (ds ++ String c "")%string = true.
Proof.
  intros Hds Hc. induction ds as [|d ds IH]; simpl.
  - now rewrite Hc.
  - simpl in Hds. apply andb_prop in Hds. destruct Hds as [Hd Hds].
    now rewrite Hd, IH.
Qed.

Lemma phone_shaped_snoc (acc : string) (c : ascii) :
  phone_shaped acc -> is_digit c = true ->
  phone_shaped (acc ++ String c "")%string.
Proof.
  intros (d & ds & -> & Hd & Hds) Hc.
  exists d, (ds ++ String c "")%string. repeat split; [exact Hd|].
  now apply all_digits_snoc.
Qed.

(** Everything the scanner finds is a plus sign followed by digits. *)
Lemma findall_scan_shaped (s : string) (st : scan) :
  (forall acc, st = Inside acc -> phone_shaped acc) ->
  Forall phone_shaped (findall_scan st s).
Proof.
  revert st. induction s as [|c rest IH]; intros st Hst; simpl.
  - destruct st as [| |acc]; constructor; [now apply Hst | constructor].
  - assert (Hrestart : Forall phone_shaped (findall_scan (restart c) rest)).
    { apply IH. intros acc Hacc. unfold restart in Hacc.
      destruct (is_plus c); discriminate Hacc. }
    destruct st as [| |acc].
    + exact Hrestart.
    + destruct (is_digit c) eqn:Ed; [|exact Hrestart].
      apply IH. intros acc Hacc. injection Hacc as <-.
      exists c, "". now repeat split.
    + destruct (is_digit c) eqn:Ed.
      * apply IH. intros acc' Hacc. injection Hacc as <-.
        apply phone_shaped_snoc; [now apply Hst | exact Ed].
      * constructor; [now apply Hst | exact Hrestart].
Qed.

Lemma append_assoc_string (a b c : string) :
  ((a ++ b) ++ c)%string = (a ++ b ++ c)%string.
Proof. induction a; simpl; congruence. Qed.

Lemma scan_follows_restart (read : string) (c : ascii) :
  scan_follows (restart c) (read ++ String c "")%string.
Proof.
  unfold restart. destruct (is_plus c) eqn:Ec; simpl; [|exact I].
  apply is_plus_eq in Ec. subst c. now exists read.
Qed.

(** Everything the scanner finds is a piece of the text it reads. *)
Lemma findall_scan_substring (s : string) (st : scan) (read : string) :
  scan_follows st read ->
  Forall (fun m => exists pre post,
              (read ++ s)%string = (pre ++ m ++ post)%string)
         (findall_scan st s).
Proof.
  revert st read. induction s as [|c rest IH]; intros st read Hst; simpl.
  - destruct st as [| |acc]; constructor; [|constructor].
    destruct Hst as [before ->]. exists before, "".
    now rewrite append_assoc_string.
  - assert (Hrestart :
              Forall (fun m => exists pre post,
                          (read ++ String c rest)%string
                          = (pre ++ m ++ post)%string)
                     (findall_scan (restart c) rest)).
    { rewrite <- append_snoc. apply IH. apply scan_follows_restart. }
    destruct st as [| |acc].
    + exact Hrestart.
    + destruct (is_digit c) eqn:Ed; [|exact Hrestart].
      rewrite <- append_snoc. apply IH.
      destruct Hst as [before ->]. exists before.
      now rewrite append_assoc_string.
    + destruct Hst as [before ->]. destruct (is_digit c) eqn:Ed.
      * rewrite <- append_snoc. apply IH. exists before.
        now rewrite append_assoc_string.
      * constructor; [|exact Hrestart].
        exists before, (String c rest). now rewrite append_assoc_string.
Qed.

(** X14.  The sender a key of the store is reduced to is always a plus
    sign followed by one or more digits, and it is a piece of the key as
    it stands: nothing is added or rewritten.  The key itself is valid
    UTF-8. *)
Theorem sender_id_is_a_phone_number_of_the_key (id sid : string) :
  sender_id_of_key id = Ret sid ->
  phone_shaped sid
  /\ (exists pre post, id = (pre ++ sid ++ post)%string)
  /\ utf8_valid id = true.
Proof.
  intro H. apply sender_id_of_key_Ret in H.
  destruct H as [Hvalid [more Hfind]].
  assert (Hshape := findall_scan_shaped id (st := Outside)
                      ltac:(intros acc Hacc; discriminate Hacc)).
  assert (Hsub := findall_scan_substring id Outside "" I).
  fold (findall_phone id) in Hshape, Hsub. rewrite Hfind in Hshape, Hsub.
  inversion Hshape as [|? ? Hs _]. inversion Hsub as [|? ? Hp _]. subst.
  now repeat split.
Qed.

Lemma sender_id_is_a_phone_number_of_the_key_witness :
  phone_shaped "+44"
  /\ exists pre post, "user +44 and +55x" = (pre ++ "+44" ++ post)%string.
Proof.
  destruct (sender_id_is_a_phone_number_of_the_key
              "user +44 and +55x" (sid := "+44") eq_refl) as (H1 & H2 & _).
  now split.
Defined.

(** ** The messages of a conversation *)

Section AssocProperties.

Variable V : Type.

Lemma assoc_set_keys (d : list (string * V)) k v k' :
  In k' (map fst (assoc_set d k v)) <-> k' = k \/ In k' (map fst d).
Proof.
  induction d as [|[k0 v0] d IH]; simpl.
  - intuition.
  - destruct (String.eqb k0 k) eqn:Ek; simpl.
    + apply String.eqb_eq in Ek. subst. intuition.
    + rewrite IH. intuition.
Qed.

Lemma assoc_set_new (d : list (string * V)) k v :
  ~ In k (map fst d) -> assoc_set d k v = d ++ [(k, v)].
Proof.
  induction d as [|[k0 v0] d IH]; simpl; intro Hno.
  - reflexivity.
  - destruct (String.eqb k0 k) eqn:Ek.
    + apply String.eqb_eq in Ek. exfalso. apply Hno. now left.
    + f_equal. apply IH. intro Hin. apply Hno. now right.
Qed.

Lemma assoc_set_NoDup (d : list (string * V)) k v :
  NoDup (map fst d) -> NoDup (map fst (assoc_set d k v)).
Proof.
  induction d as [|[k0 v0] d IH]; simpl; intro H.
  - constructor; [intros []|constructor].
  - inversion H as [|? ? Hnotin Hrest]; subst.
    destruct (String.eqb k0 k) eqn:Ek; simpl.
    + now constructor.
    + constructor; [|now apply IH].
      rewrite assoc_set_keys. intros [-> | Hin]; [|contradiction].
      now rewrite String.eqb_refl in Ek.
Qed.

Lemma assoc_get_None (d : list (string * V)) k :
  assoc_get d k = None <-> ~ In k (map fst d).
Proof.
  induction d as [|[k0 v0] d IH]; simpl.
  - intuition.
  - destruct (String.eqb k0 k) eqn:Ek.
    + apply String.eqb_eq in Ek. subst. split; [discriminate|].
      intro H. exfalso. apply H. now left.
    + apply String.eqb_neq in Ek. rewrite IH. intuition.
Qed.

Lemma assoc_get_app_new (d : list (string * V)) k v k' :
  ~ In k (map fst d) ->
  assoc_get (d ++ [(k, v)]) k'
  = if String.eqb k k' then
      match assoc_get d k' with Some _ => Some v | None => Some v end
    else assoc_get d k'.
Proof.
  intro Hno. induction d as [|[k0 v0] d IH]; simpl.
  - now destruct (String.eqb k k').
  - destruct (String.eqb k0 k') eqn:E0.
    + apply String.eqb_eq in E0. subst k0.
      destruct (String.eqb k k') eqn:Ek; [|reflexivity].
      apply String.eqb_eq in Ek. subst. exfalso. apply Hno. now left.
    + rewrite IH; [reflexivity|]. intro Hin. apply Hno. now right.
Qed.

(** The items of a dictionary build the same dictionary again. *)
Lemma fold_assoc_set_NoDup (items acc : list (string * V)) :
  NoDup (map fst (acc ++ items)) ->
  fold_left (fun d kv => assoc_set d (fst kv) (snd kv)) items acc
  = acc ++ items.
Proof.
  revert acc. induction items as [|[k v] items IH]; intros acc Hnd; simpl.
  - now rewrite app_nil_r.
  - rewrite assoc_set_new.
    + rewrite IH; rewrite <- app_assoc; [reflexivity | exact Hnd].
    + rewrite map_app in Hnd. simpl in Hnd.
      apply NoDup_remove_2 in Hnd. intro Hin. apply Hnd, in_or_app. now left.
Qed.

Lemma fold_assoc_set_keys (items acc : list (string * V)) k :
  In k (map fst (fold_left (fun d kv => assoc_set d (fst kv) (snd kv))
                           items acc))
  <-> In k (map fst acc) \/ In k (map fst items).
Proof.
  revert acc. induction items as [|[k0 v0] items IH]; intro acc; simpl.
  - intuition.
  - rewrite IH, assoc_set_keys. intuition.
Qed.

Lemma fold_assoc_set_keys_NoDup (items acc : list (string * V)) :
  NoDup (map fst acc) ->
  NoDup (map fst (fold_left (fun d kv => assoc_set d (fst kv) (snd kv))
                            items acc)).
Proof.
  revert acc. induction items as [|[k0 v0] items IH]; intros acc H; simpl.
  - exact H.
  - apply IH. now apply assoc_set_NoDup.
Qed.

End AssocProperties.

Section ConversationMessagesProperties.

Variable Value : Type.
Variable value_is_str : Value -> string -> bool.
Variable value_truthy : Value -> bool.

Local Abbreviation messages :=
  (conversation_messages value_is_str value_truthy).
Local Abbreviation user_or_bot := (is_user_or_bot value_is_str).
Local Abbreviation with_text := (has_text value_truthy).

Lemma comprehension_if_Ret (test : event Value -> result KeyError bool)
      (events kept : list (event Value)) :
  comprehension_if test events = Ret kept ->
  kept = filter (fun e => match test e with Ret b => b | Raise _ => false end)
                events
  /\ Forall (fun e => exists b, test e = Ret b) events.
Proof.
  revert kept. induction events as [|e rest IH]; intros kept H; simpl in H.
  - injection H as <-. split; [reflexivity | constructor].
  - destruct (test e) as [keep|k] eqn:Et; [|discriminate H].
    destruct (comprehension_if test rest) as [kept'|k]; [|discriminate H].
    destruct (IH kept' eq_refl) as [-> Hall]. injection H as <-.
    split.
    + simpl. rewrite Et. reflexivity.
    + constructor; [now exists keep | exact Hall].
Qed.

Lemma comprehension_if_Raise (test : event Value -> result KeyError bool)
      (events : list (event Value)) k :
  comprehension_if test events = Raise k ->
  exists e, In e events /\ test e = Raise k.
Proof.
  induction events as [|e rest IH]; intro H; simpl in H.
  - discriminate H.
  - destruct (test e) as [keep|k'] eqn:Et.
    + destruct (comprehension_if test rest) as [kept'|k'']; [discriminate H|].
      injection H as ->. destruct (IH eq_refl) as (e' & Hin & He').
      exists e'. split; [now right | exact He'].
    + injection H as ->. exists e. split; [now left | exact Et].
Qed.

Lemma comprehension_if_total (test : event Value -> result KeyError bool)
      (events : list (event Value)) :
  Forall (fun e => exists b, test e = Ret b) events ->
  exists kept, comprehension_if test events = Ret kept.
Proof.
  induction 1 as [|e rest [b Hb] _ [kept IH]]; simpl.
  - now exists [].
  - rewrite Hb, IH. now eexists.
Qed.

Lemma set_key_value_selected (k : string) :
  str_in k user_bot_keys_list = true ->
  In (set_key_value k) ["author"; "timestamp"; "text"].
Proof.
  unfold str_in, user_bot_keys_list. simpl. rewrite !orb_false_r.
  intro H. apply orb_prop in H. destruct H as [H | H].
  - apply String.eqb_eq in H. subst. simpl. now left.
  - apply orb_prop in H. destruct H as [H | H];
      apply String.eqb_eq in H; subst; simpl; intuition.
Qed.

Lemma message_view_keys (a : event Value) (k : string) :
  In k (map fst (message_view a)) <->
  exists k0, In k0 (map fst a)
             /\ str_in k0 user_bot_keys_list = true
             /\ k = set_key_value k0.
Proof.
  unfold message_view, dict_of_items. rewrite fold_assoc_set_keys.
  rewrite map_map. simpl. split.
  - intros [[] | Hin]. apply in_map_iff in Hin.
    destruct Hin as ([k0 v0] & <- & Hin0). apply filter_In in Hin0.
    destruct Hin0 as [Hin0 Hsel]. exists k0. repeat split; [|exact Hsel].
    now apply (in_map fst) in Hin0.
  - intros (k0 & Hin0 & Hsel & ->). right. apply in_map_iff in Hin0.
    destruct Hin0 as ([k1 v1] & <- & Hin1). apply in_map_iff.
    exists (k1, v1). split; [reflexivity|]. apply filter_In. now split.
Qed.

(** X15.  Whatever the events are, every message the handler answers
    with has no key but author, timestamp and text, each at most once,
    and a text that is not empty; there are no more messages than
    events. *)
Theorem conversation_messages_shape (all_events out : list (event Value)) :
  messages all_events = Ret out ->
  Forall (fun m =>
            incl (map fst m) ["author"; "timestamp"; "text"]
            /\ NoDup (map fst m)
            /\ assoc_get m "event" = None
            /\ exists text,
                assoc_get m "text" = Some text /\ value_truthy text = true)
         out
  /\ (length out <= length all_events)%nat.
Proof.
  unfold conversation_messages. intro H.
  destruct (comprehension_if user_or_bot all_events) as [kept|k] eqn:Hkept;
    [|discriminate H].
  apply comprehension_if_Ret in Hkept. destruct Hkept as [-> _].
  apply comprehension_if_Ret in H. destruct H as [-> _]. split.
  - apply Forall_forall. intros m Hm. apply filter_In in Hm.
    destruct Hm as [Hm Htext]. apply in_map_iff in Hm.
    destruct Hm as (e & <- & _).
    assert (Hkeys : incl (map fst (message_view e))
                         ["author"; "timestamp"; "text"]).
    { intros k Hk. apply message_view_keys in Hk.
      destruct Hk as (k0 & _ & Hsel & ->). now apply set_key_value_selected. }
    split; [exact Hkeys|]. split; [|split].
    + unfold message_view, dict_of_items.
      apply fold_assoc_set_keys_NoDup. constructor.
    + apply assoc_get_None. intro Hin. apply Hkeys in Hin. simpl in Hin.
      intuition discriminate.
    + unfold has_text, getitem in Htext.
      destruct (assoc_get (message_view e) "text") as [text|];
        [|discriminate Htext].
      now exists text.
  - etransitivity; [apply filter_length_le|]. rewrite length_map.
    apply filter_length_le.
Qed.

Lemma message_view_missing (a : event Value) (k0 : string) :
  str_in k0 user_bot_keys_list = true ->
  assoc_get a k0 = None ->
  assoc_get (message_view a) (set_key_value k0) = None.
Proof.
  intros Hsel Hnone. apply assoc_get_None. apply assoc_get_None in Hnone.
  intro Hin. apply message_view_keys in Hin.
  destruct Hin as (k1 & Hin1 & Hsel1 & Heq).
  assert (k1 = k0); [|now subst].
  unfold str_in, user_bot_keys_list in Hsel, Hsel1. simpl in Hsel, Hsel1.
  rewrite !orb_false_r in Hsel, Hsel1. unfold set_key_value in Heq.
  repeat match goal with
         | H : (_ || _)%bool = true |- _ =>
             apply orb_prop in H; destruct H as [H | H]
         | H : String.eqb _ _ = true |- _ => apply String.eqb_eq in H; subst
         end; simpl in Heq; congruence.
Qed.

(** X16.  An event without the key "event" makes the handler fail with
    the [KeyError] of that key; when every event has it, an event of the
    user or the bot without the key "text" makes it fail with the
    [KeyError] of "text"; and it fails in no other way. *)
Theorem conversation_messages_key_errors (all_events : list (event Value)) :
  ((exists e, In e all_events /\ assoc_get e "event" = None) ->
   messages all_events = Raise (mkKeyError "event"))
  /\ (Forall (fun e => assoc_get e "event" <> None) all_events ->
      (exists e, In e all_events
                 /\ user_or_bot e = Ret true
                 /\ assoc_get e "text" = None) ->
      messages all_events = Raise (mkKeyError "text"))
  /\ (forall k, messages all_events = Raise (mkKeyError k) ->
                k = "event" \/ k = "text").
Proof.
  unfold conversation_messages. split; [|split].
  - intros (e & Hin & Hnone).
    destruct (comprehension_if user_or_bot all_events) as [kept|k] eqn:Hkept.
    + apply comprehension_if_Ret in Hkept. destruct Hkept as [_ Hall].
      rewrite Forall_forall in Hall. destruct (Hall e Hin) as [b Hb].
      unfold is_user_or_bot, getitem in Hb. rewrite Hnone in Hb.
      discriminate Hb.
    + apply comprehension_if_Raise in Hkept.
      destruct Hkept as (e' & _ & He'). unfold is_user_or_bot, getitem in He'.
      destruct (assoc_get e' "event"); [discriminate He'|].
      now injection He' as <-.
  - intros Hall (e & Hin & Huser & Hnone).
    destruct (comprehension_if user_or_bot all_events) as [kept|k] eqn:Hkept.
    + apply comprehension_if_Ret in Hkept. destruct Hkept as [-> _].
      destruct (comprehension_if with_text _) as [out|k] eqn:Hout.
      * apply comprehension_if_Ret in Hout. destruct Hout as [_ Htexts].
        rewrite Forall_forall in Htexts.
        destruct (Htexts (message_view e)) as [b Hb].
        { apply in_map, filter_In. split; [exact Hin|]. now rewrite Huser. }
        unfold has_text, getitem in Hb.
        assert (Hview := message_view_missing e "text" eq_refl Hnone).
        change (set_key_value "text") with "text" in Hview.
        rewrite Hview in Hb. discriminate Hb.
      * apply comprehension_if_Raise in Hout.
        destruct Hout as (m & _ & Hm). unfold has_text, getitem in Hm.
        destruct (assoc_get m "text"); [discriminate Hm|].
        now injection Hm as <-.
    + apply comprehension_if_Raise in Hkept.
      destruct Hkept as (e' & Hin' & He'). rewrite Forall_forall in Hall.
      unfold is_user_or_bot, getitem in He'.
      destruct (assoc_get e' "event") eqn:Ee; [discriminate He'|].
      now apply Hall in Hin'.
  - intros k H.
    destruct (comprehension_if user_or_bot all_events) as [kept|k'] eqn:Hkept.
    + apply comprehension_if_Raise in H. destruct H as (m & _ & Hm).
      unfold has_text, getitem in Hm.
      destruct (assoc_get m "text"); [discriminate Hm|].
      injection Hm as <-. now right.
    + injection H as ->. apply comprehension_if_Raise in Hkept.
      destruct Hkept as (e' & _ & He'). unfold is_user_or_bot, getitem in He'.
      destruct (assoc_get e' "event"); [discriminate He'|].
      injection He' as <-. now left.
Qed.

Lemma set_key_value_inj (k1 k2 : string) :
  str_in k1 user_bot_keys_list = true ->
  str_in k2 user_bot_keys_list = true ->
  set_key_value k1 = set_key_value k2 -> k1 = k2.
Proof.
  unfold str_in, user_bot_keys_list. simpl. rewrite !orb_false_r.
  intros H1 H2 Heq. unfold set_key_value in Heq.
  repeat match goal with
         | H : (_ || _)%bool = true |- _ =>
             apply orb_prop in H; destruct H as [H | H]
         | H : String.eqb _ _ = true |- _ => apply String.eqb_eq in H; subst
         end; simpl in Heq; congruence.
Qed.

Lemma renamed_entries_keys_NoDup (e : event Value) :
  NoDup (map fst e) -> NoDup (map fst (renamed_entries e)).
Proof.
  unfold renamed_entries.
  induction e as [|[k v] e IH]; cbn -[str_in]; intro Hnd.
  - constructor.
  - inversion Hnd as [|? ? Hnotin Hrest]; subst.
    destruct (str_in k user_bot_keys_list) eqn:Hsel; cbn -[str_in];
      [|now apply IH].
    constructor; [|now apply IH].
    intro Hin. apply Hnotin. rewrite map_map in Hin. cbn -[str_in] in Hin.
    apply in_map_iff in Hin. destruct Hin as ([k' v'] & Heq & Hin').
    apply filter_In in Hin'. destruct Hin' as [Hin' Hsel'].
    cbn -[str_in] in Heq, Hsel'.
    apply set_key_value_inj in Heq; [|exact Hsel'|exact Hsel]. subst k'.
    now apply (in_map fst) in Hin'.
Qed.

Lemma message_view_of_dict (e : event Value) :
  NoDup (map fst e) -> message_view e = renamed_entries e.
Proof.
  intro Hnd. unfold message_view, dict_of_items.
  fold (renamed_entries e).
  now rewrite fold_assoc_set_NoDup; [|apply renamed_entries_keys_NoDup].
Qed.

Lemma renamed_entries_get (e : event Value) (k0 : string) :
  str_in k0 user_bot_keys_list = true ->
  assoc_get (renamed_entries e) (set_key_value k0) = assoc_get e k0.
Proof.
  intro Hsel. unfold renamed_entries.
  induction e as [|[k v] e IH]; cbn -[str_in]; [reflexivity|].
  destruct (str_in k user_bot_keys_list) eqn:Hk; cbn -[str_in].
  - destruct (String.eqb k k0) eqn:Ek.
    + apply String.eqb_eq in Ek. subst. now rewrite String.eqb_refl.
    + destruct (String.eqb (set_key_value k) (set_key_value k0)) eqn:Er;
        [|exact IH].
      apply String.eqb_eq in Er. apply set_key_value_inj in Er;
        [|exact Hk|exact Hsel].
      subst. now rewrite String.eqb_refl in Ek.
  - destruct (String.eqb k k0) eqn:Ek; [|exact IH].
    apply String.eqb_eq in Ek. subst. congruence.
Qed.

(** X17.  For events that are dictionaries (no key twice) the answer
    lists, in the order of the events, those of the user and of the bot
    whose text is not empty, each reduced to its entries event, timestamp
    and text in the order they have in the event, the first under the new
    name author and all three with their values as they were. *)
Theorem conversation_messages_of_dicts (all_events out : list (event Value)) :
  Forall (fun e => NoDup (map fst e)) all_events ->
  messages all_events = Ret out ->
  out = map renamed_entries
            (filter (shown_message value_is_str value_truthy) all_events)
  /\ Forall (fun e =>
               assoc_get (renamed_entries e) "author" = assoc_get e "event"
               /\ assoc_get (renamed_entries e) "timestamp"
                  = assoc_get e "timestamp"
               /\ assoc_get (renamed_entries e) "text" = assoc_get e "text")
            all_events.
Proof.
  intros Hdicts H. split.
  - unfold conversation_messages in H.
    destruct (comprehension_if user_or_bot all_events) as [kept|k] eqn:Hkept;
      [|discriminate H].
    apply comprehension_if_Ret in Hkept. destruct Hkept as [-> Hevents].
    apply comprehension_if_Ret in H. destruct H as [-> _].
    clear Hevents. induction Hdicts as [|e rest He _ IH]; [reflexivity|].
    simpl. unfold shown_message at 1.
    unfold is_user_or_bot at 1, getitem at 1.
    destruct (assoc_get e "event") as [kind|] eqn:Ekind; [|exact IH].
    destruct (existsb (value_is_str kind) user_bot_kv_list); simpl;
      [|destruct (assoc_get e "text"); exact IH].
    unfold has_text at 1, getitem at 1.
    rewrite (message_view_of_dict e He).
    assert (Htext := renamed_entries_get e "text" eq_refl).
    change (set_key_value "text") with "text" in Htext. rewrite Htext.
    destruct (assoc_get e "text") as [text|]; [|exact IH].
    destruct (value_truthy text); [|exact IH].
    now rewrite IH.
  - apply Forall_forall. intros e _. split; [|split].
    + apply (renamed_entries_get e "event" eq_refl).
    + apply (renamed_entries_get e "timestamp" eq_refl).
    + apply (renamed_entries_get e "text" eq_refl).
Qed.

End ConversationMessagesProperties.

(** ** predict *)

Section SortedByProperties.

Variable A : Type.
Variable lt : A -> A -> bool.

Lemma insert_by_perm (x : A) (l : list A) :
  Permutation (insert_by lt x l) (x :: l).
Proof.
  induction l as [|y l IH]; simpl.
  - apply Permutation_refl.
  - destruct (lt y x).
    + eapply perm_trans; [apply perm_skip, IH | apply perm_swap].
    + apply Permutation_refl.
Qed.

Lemma sorted_by_perm (l : list A) : Permutation (sorted_by lt l) l.
Proof.
  induction l as [|x l IH]; simpl.
  - constructor.
  - eapply perm_trans; [apply insert_by_perm | now apply perm_skip].
Qed.

(** The order: what is smaller is not greater, and "not greater" is
    transitive. *)
Hypothesis lt_asym : forall a b, lt a b = true -> lt b a = false.
Hypothesis le_trans :
  forall a b c, lt b a = false -> lt c b = false -> lt c a = false.

Lemma insert_by_sorted (x : A) (l : list A) :
  StronglySorted (fun a b => lt b a = false) l ->
  StronglySorted (fun a b => lt b a = false) (insert_by lt x l).
Proof.
  induction 1 as [|y l Hl IH Hy]; simpl.
  - constructor; constructor.
  - destruct (lt y x) eqn:Eyx.
    + constructor; [exact IH|].
      apply (Permutation_Forall (Permutation_sym (insert_by_perm x l))).
      constructor; [now apply lt_asym | exact Hy].
    + constructor; [now constructor|].
      constructor; [exact Eyx|].
      apply Forall_forall. intros z Hz. rewrite Forall_forall in Hy.
      apply (le_trans Eyx (Hy z Hz)).
Qed.

Lemma sorted_by_sorted (l : list A) :
  StronglySorted (fun a b => lt b a = false) (sorted_by lt l).
Proof.
  induction l as [|x l IH]; simpl; [constructor | now apply insert_by_sorted].
Qed.

Lemma insert_by_stable (z x : A) (l : list A) :
  filter (same_rank lt z) (insert_by lt x l)
  = filter (same_rank lt z) (x :: l).
Proof.
  induction l as [|y l IH]; [reflexivity|].
  simpl insert_by. destruct (lt y x) eqn:Eyx; [|reflexivity].
  change (filter (same_rank lt z) (y :: insert_by lt x l))
    with (if same_rank lt z y
          then y :: filter (same_rank lt z) (insert_by lt x l)
          else filter (same_rank lt z) (insert_by lt x l)).
  rewrite IH. simpl.
  destruct (same_rank lt z x) eqn:Ezx, (same_rank lt z y) eqn:Ezy;
    try reflexivity.
  exfalso. unfold same_rank in Ezx, Ezy.
  apply andb_prop in Ezx, Ezy. destruct Ezx as [Hxz _], Ezy as [_ Hzy].
  apply negb_true_iff in Hxz, Hzy.
  rewrite (le_trans Hxz Hzy) in Eyx. discriminate Eyx.
Qed.

Lemma sorted_by_stable (z : A) (l : list A) :
  filter (same_rank lt z) (sorted_by lt l) = filter (same_rank lt z) l.
Proof.
  induction l as [|x l IH]; [reflexivity|].
  simpl sorted_by. rewrite insert_by_stable. simpl. now rewrite IH.
Qed.

End SortedByProperties.

Lemma ascii_compare_refl (c : ascii) : Ascii.compare c c = Eq.
Proof. unfold Ascii.compare. apply N.compare_refl. Qed.

Lemma ascii_compare_lt_trans (a b c : ascii) :
  Ascii.compare a b = Lt -> Ascii.compare b c = Lt -> Ascii.compare a c = Lt.
Proof.
  unfold Ascii.compare. rewrite !N.compare_lt_iff. apply N.lt_trans.
Qed.

Lemma string_compare_lt_trans (a : string) : forall b c,
  String.compare a b = Lt -> String.compare b c = Lt ->
  String.compare a c = Lt.
Proof.
  induction a as [|x a IH]; intros [|y b] [|z c]; simpl;
    try discriminate; try reflexivity.
  destruct (Ascii.compare x y) eqn:Exy; try discriminate;
    destruct (Ascii.compare y z) eqn:Eyz; try discriminate; intros H1 H2.
  - apply Ascii.compare_eq_iff in Exy, Eyz. subst.
    rewrite ascii_compare_refl. now apply (IH b c).
  - apply Ascii.compare_eq_iff in Exy. subst. now rewrite Eyz.
  - apply Ascii.compare_eq_iff in Eyz. subst. now rewrite Exy.
  - now rewrite (ascii_compare_lt_trans _ _ _ Exy Eyz).
Qed.

Lemma string_compare_refl (s : string) : String.compare s s = Eq.
Proof.
  induction s as [|c s IH]; simpl; [reflexivity|].
  now rewrite ascii_compare_refl.
Qed.

Lemma string_leb_trans (a b c : string) :
  String.leb a b = true -> String.leb b c = true -> String.leb a c = true.
Proof.
  unfold String.leb.
  destruct (String.compare a b) eqn:Eab; try discriminate;
    destruct (String.compare b c) eqn:Ebc; try discriminate; intros _ _.
  - apply String.compare_eq_iff in Eab, Ebc. subst.
    now rewrite string_compare_refl.
  - apply String.compare_eq_iff in Eab. subst. now rewrite Ebc.
  - apply String.compare_eq_iff in Ebc. subst. now rewrite Eab.
  - now rewrite (string_compare_lt_trans _ _ _ Eab Ebc).
Qed.

Lemma string_ltb_not_leb (a b : string) :
  String.ltb a b = negb (String.leb b a).
Proof.
  unfold String.ltb, String.leb. rewrite (String.compare_antisym a b).
  now destruct (String.compare b a).
Qed.

Lemma score_key_lt_spec (a b : ActionScore) :
  score_key_lt a b = true
  <-> (score b < score a)%Q
      \/ (score a == score b /\ String.ltb (action a) (action b) = true).
Proof.
  unfold score_key_lt.
  destruct (Qeq_bool (- score a) (- score b)) eqn:Eeq.
  - apply Qeq_bool_iff in Eeq.
    assert (Hs : score a == score b).
    { rewrite <- (Qopp_involutive (score a)), Eeq. apply Qopp_involutive. }
    split.
    + intro H. right. now split.
    + intros [Hlt | [_ H]]; [|exact H].
      rewrite Hs in Hlt. now apply Qlt_irrefl in Hlt.
  - assert (Hs : ~ score a == score b).
    { intro Hs. apply Qeq_bool_neq in Eeq. apply Eeq. now rewrite Hs. }
    rewrite negb_true_iff. split.
    + intro H. left. apply Qnot_le_lt. intro Hle.
      apply Qopp_le_compat in Hle. apply Qle_bool_iff in Hle. congruence.
    + intros [Hlt | [H _]]; [|contradiction].
      destruct (Qle_bool (- score b) (- score a)) eqn:Ele; [|reflexivity].
      apply Qle_bool_iff in Ele. apply Qopp_le_compat in Ele.
      rewrite !Qopp_involutive in Ele.
      exfalso. apply (Qlt_not_le _ _ Hlt Ele).
Qed.

Lemma score_key_le_spec (a b : ActionScore) :
  score_key_lt b a = false <-> ranks_before a b.
Proof.
  unfold ranks_before. split.
  - intro H.
    destruct (Qlt_le_dec (score b) (score a)) as [Hlt | Hle]; [now left|].
    right.
    assert (Hs : score a == score b).
    { apply Qle_antisym; [exact Hle|]. apply Qnot_lt_le. intro Hlt.
      assert (Ht : score_key_lt b a = true)
        by (apply score_key_lt_spec; now left).
      congruence. }
    split; [exact Hs|].
    destruct (String.leb (action a) (action b)) eqn:El; [reflexivity|].
    assert (Ht : score_key_lt b a = true).
    { apply score_key_lt_spec. right. split; [now symmetry|].
      rewrite string_ltb_not_leb. now rewrite El. }
    congruence.
  - intro H. destruct (score_key_lt b a) eqn:E; [|reflexivity].
    apply score_key_lt_spec in E.
    destruct H as [Hlt | [Hs Hl]], E as [Hlt' | [Hs' Hl']].
    + exfalso. apply (Qlt_irrefl (score a)). now apply Qlt_trans with (score b).
    + rewrite Hs' in Hlt. now apply Qlt_irrefl in Hlt.
    + rewrite Hs in Hlt'. now apply Qlt_irrefl in Hlt'.
    + rewrite string_ltb_not_leb, Hl in Hl'. discriminate Hl'.
Qed.

Lemma ranks_before_trans (a b c : ActionScore) :
  ranks_before a b -> ranks_before b c -> ranks_before a c.
Proof.
  unfold ranks_before.
  intros [Hab | [Hab Lab]] [Hbc | [Hbc Lbc]].
  - left. now apply Qlt_trans with (score b).
  - left. now rewrite <- Hbc.
  - left. now rewrite Hab.
  - right. split.
    + now rewrite Hab.
    + now apply string_leb_trans with (action b).
Qed.

Lemma score_key_lt_asym (a b : ActionScore) :
  score_key_lt a b = true -> score_key_lt b a = false.
Proof.
  intro H. apply score_key_le_spec. apply score_key_lt_spec in H.
  destruct H as [Hlt | [Hs Hl]]; [now left|]. right. split; [exact Hs|].
  rewrite string_ltb_not_leb in Hl. apply negb_true_iff in Hl.
  destruct (String.leb_total (action a) (action b)) as [H | H];
    [exact H | congruence].
Qed.

Lemma score_key_le_trans (a b c : ActionScore) :
  score_key_lt b a = false -> score_key_lt c b = false ->
  score_key_lt c a = false.
Proof.
  rewrite !score_key_le_spec. apply ranks_before_trans.
Qed.

Lemma StronglySorted_weaken (A : Type) (R R' : A -> A -> Prop) (l : list A) :
  (forall a b, R a b -> R' a b) ->
  StronglySorted R l -> StronglySorted R' l.
Proof.
  intros Himp. induction 1 as [|x l Hl IH Hx]; constructor; [exact IH|].
  eapply Forall_impl; [|exact Hx]. intros b Hb. now apply Himp.
Qed.

Section PredictProperties.

Variable rasa_version : string.
Variable World : Type.
Variable Prediction : Type.
Variable predict_next :
  string -> M World pyexn (list ActionScore * Prediction).

Local Abbreviation predicted := (predict rasa_version predict_next).

(** X18.  The scores a prediction is answered with are the scores of the
    agent in another order: by falling score and, for equal scores, by
    rising action name, so that no action has a higher score than the
    first one.  Entries with the same score and the same name keep the
    order the agent gave them, and the rest of the prediction is passed
    on as it is. *)
Theorem predict_ranks_the_scores sender_id w scores rest w' :
  predicted sender_id w = (Ret (scores, rest), w') ->
  exists raw,
    predict_next sender_id w = (Ret (raw, rest), w')
    /\ Permutation scores raw
    /\ StronglySorted ranks_before scores
    /\ (forall best others,
           scores = best :: others ->
           Forall (fun a => (score a <= score best)%Q) others)
    /\ (forall z, filter (same_rank score_key_lt z) scores
                  = filter (same_rank score_key_lt z) raw).
Proof.
  unfold predict, try_except, bind, ret. intro H.
  destruct (predict_next sender_id w) as [[[raw rest']|e] w1];
    [|discriminate H].
  injection H as <- <- <-. exists raw. split; [reflexivity|].
  assert (Hsorted : StronglySorted ranks_before
                      (sorted_by score_key_lt raw)).
  { eapply StronglySorted_weaken;
      [|apply (@sorted_by_sorted _ score_key_lt score_key_lt_asym
                                 score_key_le_trans)].
    intros a b Hab. now apply score_key_le_spec. }
  split; [apply sorted_by_perm|]. split; [exact Hsorted|]. split.
  - intros best others Heq. rewrite Heq in Hsorted.
    apply StronglySorted_inv in Hsorted. destruct Hsorted as [_ Hbest].
    eapply Forall_impl; [|exact Hbest].
    intros a [Hlt | [Hs _]]; [now apply Qlt_le_weak|].
    rewrite Hs. apply Qle_refl.
  - intro z. apply (@sorted_by_stable _ score_key_lt score_key_le_trans).
Qed.

(** Whatever goes wrong in the agent while it predicts, the
    request fails with 500 [PredictionException], the text of the failure
    in its message; no failure of the agent gets out as it is. *)
Theorem predict_wraps_every_failure sender_id w r w' :
  predicted sender_id w = (Raise r, w') ->
  exists e,
    predict_next sender_id w = (Raise e, w')
    /\ r = ErrorResponseExn
             (ErrorResponse_init rasa_version 500 "PredictionException"
                (VStr ("Server failure. Error: " ++ str_of_exn e)%string)
                None None).
Proof.
  unfold predict, try_except, bind, ret. intro H.
  destruct (predict_next sender_id w) as [[[raw rest']|e] w1];
    [discriminate H|].
  injection H as <- <-. now exists e.
Qed.

End PredictProperties.

(** ** respond and log_message *)

Section MessagesProperties.

Variable rasa_version : string.
Variable World : Type.
Variable OutputChannel : Type.
Variable CollectingOutputChannel : OutputChannel.
Variable Value : Type.
Variable value_is_str : Value -> string -> bool.
Variable str_of_value : option Value -> string.
Variable Replies : Type.
Variable handle_text :
  Value -> OutputChannel -> string -> M World pyexn Replies.
Variable EventVerbosity : Type.
Variable State : Type.
Variable log_user_message :
  option Value -> string -> option Value -> EventVerbosity ->
  M World pyexn State.
Variable verbosity_parameter : result ErrorResponse EventVerbosity.

Local Abbreviation answer :=
  (respond rasa_version CollectingOutputChannel handle_text).
Local Abbreviation to_agent :=
  (fun message sender_id =>
     try_except (handle_text message CollectingOutputChannel sender_id)
                (respond_except rasa_version)).
Local Abbreviation logged :=
  (log_message rasa_version value_is_str str_of_value log_user_message
     verbosity_parameter).

(** X19.  The message to respond to is the parameter [query], and [q]
    only when there is no [query]; for a GET request the parameters are
    those of the URL, whatever the body is.  Without either parameter the
    request fails with 400 [InvalidParameter] (details: [query], in the
    query) and the agent is not called.  A failure of the agent, a
    [ValueError] too, gives 500 [ActionException]. *)
Theorem respond_reads_query_before_q (request : MessageRequest Value)
        (sender_id : string) params :
  request_parameters request = Ret (Some params) ->
  (method request = "GET" -> params = raw_args request)
  /\ (forall message,
         assoc_get params "query" = Some message ->
         answer request sender_id = to_agent message sender_id)
  /\ (forall message,
         assoc_get params "query" = None ->
         assoc_get params "q" = Some message ->
         answer request sender_id = to_agent message sender_id)
  /\ (assoc_get params "query" = None ->
      assoc_get params "q" = None ->
      forall w,
        answer request sender_id w
        = (Raise (ErrorResponseExn (MissingMessage rasa_version)), w))
  /\ status (MissingMessage rasa_version) = 400
  /\ dict_get (error_info (MissingMessage rasa_version)) "details"
     = Some (VDict [("parameter", VStr "query"); ("in", VStr "query")])
  /\ (forall message w e w',
         handle_text message CollectingOutputChannel sender_id w
         = (Raise e, w') ->
         to_agent message sender_id w
         = (Raise (ErrorResponseExn
                     (ErrorResponse_init rasa_version 500 "ActionException"
                        (VStr ("Server failure. Error: "
                               ++ str_of_exn e)%string) None None)), w')).
Proof.
  intro Hparams. split; [|split; [|split; [|split; [|split; [|split]]]]].
  - intro Hget. unfold request_parameters in Hparams. rewrite Hget in Hparams.
    simpl in Hparams. now injection Hparams as <-.
  - intros message Hq. unfold respond. now rewrite Hparams, Hq.
  - intros message Hquery Hq. unfold respond. now rewrite Hparams, Hquery, Hq.
  - intros Hquery Hq w. unfold respond. now rewrite Hparams, Hquery, Hq.
  - reflexivity.
  - reflexivity.
  - intros message w e w' H. unfold try_except. now rewrite H.
Qed.

(** X20.  A message is logged from the entry [message] of the body when
    the body has that key, and from [text] otherwise.  Only messages of
    the sender "user" are taken: any other sender, or none, fails with
    500 [NotSupported] (details: [sender], in the body) before the agent
    is called.  A wrong [include_events] is reported first, and a failure
    of the agent gives 500 [MessageException]. *)
Theorem log_message_takes_user_messages_only
        (request : MessageRequest Value) (sender_id : string) params :
  json request = Ret (Some params) ->
  let message :=
    match assoc_get params "message" with
    | Some v => Some v
    | None => assoc_get params "text"
    end in
  (forall e, verbosity_parameter = Raise e ->
             forall w, logged request sender_id w
                       = (Raise (ErrorResponseExn e), w))
  /\ (forall v, verbosity_parameter = Ret v ->
        (sender_is_not_user value_is_str (assoc_get params "sender") = true ->
         forall w,
           logged request sender_id w
           = (Raise (ErrorResponseExn
                       (NotSupported rasa_version str_of_value
                          (assoc_get params "sender"))), w))
        /\ (sender_is_not_user value_is_str (assoc_get params "sender")
            = false ->
            logged request sender_id
            = try_except
                (log_user_message message sender_id
                   (assoc_get params "parse_data") v)
                (log_message_except rasa_version)))
  /\ (forall sender,
         status (NotSupported rasa_version str_of_value sender) = 500
         /\ reason_of (NotSupported rasa_version str_of_value sender)
            = Some (VStr "NotSupported")
         /\ dict_get (error_info (NotSupported rasa_version str_of_value
                                    sender)) "details"
            = Some (VDict [("parameter", VStr "sender");
                           ("in", VStr "body")]))
  /\ (assoc_get params "sender" = None ->
      sender_is_not_user value_is_str (assoc_get params "sender") = true).
Proof.
  intros Hjson message. split; [|split; [|split]].
  - intros e He w. unfold log_message. now rewrite Hjson, He.
  - intros v Hv. split.
    + intros Hsender w. unfold log_message. now rewrite Hjson, Hv, Hsender.
    + intro Hsender. unfold log_message. now rewrite Hjson, Hv, Hsender.
  - intro sender. split; [reflexivity|]. split; reflexivity.
  - intros ->. reflexivity.
Qed.

End MessagesProperties.

(** ** get_domain *)

Lemma ends_with_spec (s suffix : string) :
  ends_with s suffix = true <-> exists pre, s = (pre ++ suffix)%string.
Proof.
  induction s as [|c s IH]; cbn [ends_with].
  - rewrite orb_false_r, String.eqb_eq. split.
    + intros <-. now exists "".
    + intros [[|c pre] H]; [exact H | discriminate H].
  - rewrite orb_true_iff, String.eqb_eq, IH. split.
    + intros [<- | [pre ->]]; [now exists "" | now exists (String c pre)].
    + intros [[|c' pre] H].
      * left. exact H.
      * right. injection H as _ ->. now exists pre.
Qed.

Section GetDomainProperties.

Variable rasa_version : string.
Variable D : Type.
Variable as_dict : result pyexn D.
Variable as_yaml : result pyexn string.

Local Abbreviation domain_for := (get_domain rasa_version as_dict as_yaml).

Local Abbreviation json_answer := (json_domain as_dict).
Local Abbreviation yaml_answer := (yaml_domain D as_yaml).

(** X21.  The domain is answered as JSON when the Accept header ends in
    "json" or is absent, as YAML (status 200, content type
    application/x-yml) when it ends in "yml" or "yaml" and not in "json",
    and the request fails with 406 [InvalidHeader] exactly when the
    header ends in none of the three: also when it lists JSON but ends in
    something else. *)
Theorem get_domain_goes_by_the_end_of_accept :
  domain_for None = json_answer
  /\ (forall pre, domain_for (Some (pre ++ "json")%string) = json_answer)
  /\ (forall accepts,
         (~ exists pre, accepts = (pre ++ "json")%string) ->
         (exists pre, accepts = (pre ++ "yml")%string
                      \/ accepts = (pre ++ "yaml")%string) ->
         domain_for (Some accepts) = yaml_answer)
  /\ (forall accepts,
         domain_for (Some accepts)
         = Raise (ErrorResponseExn (InvalidHeader rasa_version))
         <-> (~ exists pre, accepts = (pre ++ "json")%string)
             /\ (~ exists pre, accepts = (pre ++ "yml")%string)
             /\ (~ exists pre, accepts = (pre ++ "yaml")%string))
  /\ domain_for (Some "application/json, text/plain")
     = Raise (ErrorResponseExn (InvalidHeader rasa_version))
  /\ status (InvalidHeader rasa_version) = 406.
Proof.
  assert (Hno : forall s suffix,
             ends_with s suffix = false
             <-> ~ exists pre, s = (pre ++ suffix)%string).
  { intros s suffix. rewrite <- ends_with_spec.
    destruct (ends_with s suffix); intuition congruence. }
  split; [reflexivity|]. split; [|split; [|split; [|split]]].
  - intro pre. unfold get_domain.
    now rewrite (proj2 (ends_with_spec _ _) (ex_intro _ pre eq_refl)).
  - intros accepts Hjson [pre Hy]. unfold get_domain.
    rewrite (proj2 (Hno _ _) Hjson).
    assert (Hyes : ends_with accepts "yml" || ends_with accepts "yaml" = true).
    { apply orb_true_iff.
      destruct Hy as [-> | ->]; [left | right];
        apply ends_with_spec; now exists pre. }
    now rewrite Hyes.
  - intro accepts. unfold get_domain. rewrite <- !Hno.
    destruct (ends_with accepts "json").
    + split; [|intros [H _]; discriminate H].
      destruct as_dict; discriminate.
    + destruct (ends_with accepts "yml"); simpl.
      * split; [|intros [_ [H _]]; discriminate H].
        destruct as_yaml; discriminate.
      * destruct (ends_with accepts "yaml").
        -- split; [|intros [_ [_ H]]; discriminate H].
           destruct as_yaml; discriminate.
        -- split; [now repeat split | reflexivity].
  - reflexivity.
  - reflexivity.
Qed.

End GetDomainProperties.

(** ** Endpoints behind both decorators *)

Section GuardedEndpointProperties.

Variable rasa_version : string.
Variable DOCS_BASE_URL : string.
Variable OutputChannel : Type.
Variable R : Type.
Variable USE_JWT : option bool.
Variable token : option string.
Variable handler : Request OutputChannel -> list string ->
                   list (string * string) -> R.
Variable argnames : list string.

Local Abbreviation endpoint :=
  (fun ready =>
     guarded_endpoint rasa_version DOCS_BASE_URL USE_JWT token ready
                      handler argnames).
Local Abbreviation bare :=
  (decorated rasa_version DOCS_BASE_URL USE_JWT token handler argnames).

(** X22.  For an endpoint behind both decorators the caller is checked
    first: a request the authorization refuses gets the same 401 or 403
    whether an agent is loaded or not, and the 503 [NoAgent] answer is
    given only to requests that passed the authorization.  The handler
    runs exactly when both checks pass. *)
Theorem authorization_comes_before_agent_check
        (request : Request OutputChannel) args kwargs :
  (forall e ready,
      bare request args kwargs = Rejected e ->
      endpoint ready request args kwargs = Rejected e)
  /\ (bare request args kwargs = Dispatched (handler request args kwargs) ->
      endpoint false request args kwargs
      = Dispatched (Rejected (NoAgent rasa_version DOCS_BASE_URL))
      /\ endpoint true request args kwargs
         = Dispatched (Dispatched (handler request args kwargs)))
  /\ (forall ready r,
         endpoint ready request args kwargs = Dispatched (Dispatched r) ->
         ready = true
         /\ r = handler request args kwargs
         /\ bare request args kwargs = Dispatched r)
  /\ status (NoAgent rasa_version DOCS_BASE_URL) = 503.
Proof.
  unfold guarded_endpoint, decorated, ensure_loaded_agent.
  split; [|split; [|split]].
  - intros e ready.
    destruct (secret_matches token request); [discriminate|].
    destruct (jwt_authenticated USE_JWT request).
    + unfold sufficient_scope.
      destruct (opt_str_eqb (jwt_role request) (Some "admin"));
        [discriminate|].
      destruct (opt_str_eqb (jwt_role request) (Some "user"));
        [|intro H; apply Rejected_inj in H; now subst].
      destruct (sender_id_from_args argnames args kwargs);
        [|intro H; apply Rejected_inj in H; now subst].
      destruct (opt_str_eqb (jwt_username request) (Some s));
        [discriminate | intro H; apply Rejected_inj in H; now subst].
    + destruct (auth_disabled USE_JWT token);
        [discriminate | intro H; apply Rejected_inj in H; now subst].
  - destruct (secret_matches token request); [intros _; now split|].
    destruct (jwt_authenticated USE_JWT request).
    + unfold sufficient_scope.
      destruct (opt_str_eqb (jwt_role request) (Some "admin"));
        [intros _; now split|].
      destruct (opt_str_eqb (jwt_role request) (Some "user"));
        [|discriminate].
      destruct (sender_id_from_args argnames args kwargs); [|discriminate].
      destruct (opt_str_eqb (jwt_username request) (Some s));
        [intros _; now split | discriminate].
    + destruct (auth_disabled USE_JWT token);
        [intros _; now split | discriminate].
  - intros ready r.
    assert (Hready : Dispatched (if negb ready
                                 then Rejected (NoAgent rasa_version
                                                        DOCS_BASE_URL)
                                 else Dispatched (handler request args kwargs))
                     = Dispatched (Dispatched r) ->
                     ready = true /\ r = handler request args kwargs).
    { destruct ready; simpl; intro H; [|discriminate H].
      injection H as <-. now split. }
    destruct (secret_matches token request).
    + intro H. destruct (Hready H) as [-> ->]. now repeat split.
    + destruct (jwt_authenticated USE_JWT request).
      * unfold sufficient_scope.
        destruct (opt_str_eqb (jwt_role request) (Some "admin")).
        -- intro H. destruct (Hready H) as [-> ->]. now repeat split.
        -- destruct (opt_str_eqb (jwt_role request) (Some "user"));
             [|discriminate].
           destruct (sender_id_from_args argnames args kwargs);
             [|discriminate].
           destruct (opt_str_eqb (jwt_username request) (Some s));
             [|discriminate].
           intro H. destruct (Hready H) as [-> ->]. now repeat split.
      * destruct (auth_disabled USE_JWT token); [|discriminate].
        intro H. destruct (Hready H) as [-> ->]. now repeat split.
  - reflexivity.
Qed.

End GuardedEndpointProperties.

(** ** The further properties on the small deployment *)

Lemma admin_is_granted_any_target_witness :
  Demo.gate (Some true) None Sample.admin_request [] [("sender_id", "bob")]
  = Dispatched "handled".
Proof.
  apply (admin_is_granted_any_target Demo.version Demo.docs (Some true) None
           Demo.handler Demo.argnames Sample.admin_request []
           [("sender_id", "bob")] eq_refl eq_refl eq_refl).
Defined.

Lemma other_role_is_forbidden_witness :
  Demo.gate (Some true) None Sample.guest_request [] [("sender_id", "alice")]
  = Rejected (NotAuthorized Demo.version Demo.docs).
Proof.
  apply (other_role_is_forbidden Demo.version Demo.docs (Some true) None
           Demo.handler Demo.argnames Sample.guest_request []
           [("sender_id", "alice")] eq_refl eq_refl);
    discriminate.
Defined.

Lemma user_is_forbidden_without_sender_parameter_witness :
  decorated Demo.version Demo.docs (Some true) None Demo.handler ["request"]
    Demo.alice_request [] [("sender_id", "alice")]
  = Rejected (NotAuthorized Demo.version Demo.docs).
Proof.
  apply (proj2 (user_is_forbidden_without_sender_parameter Demo.version
                  Demo.docs (Some true) None Demo.handler ["request"]
                  Demo.alice_request [] [("sender_id", "alice")]
                  ltac:(simpl; intuition discriminate))
           eq_refl eq_refl eq_refl).
Defined.

Lemma sender_id_prefers_keyword_witness :
  sender_id_from_args Demo.argnames ["req"; "carol"] [("sender_id", "alice")]
  = Some "alice"
  /\ sender_id_from_args Demo.argnames ["req"; "carol"] [] = Some "carol"
  /\ sender_id_from_args Demo.argnames ["carol"] [] = None.
Proof.
  destruct (sender_id_prefers_keyword Demo.argnames ["req"; "carol"]
              [("sender_id", "alice")] (i := 1) eq_refl) as (_ & H1 & _).
  destruct (sender_id_prefers_keyword Demo.argnames ["req"; "carol"]
              [] (i := 1) eq_refl) as (_ & _ & H2 & _).
  destruct (sender_id_prefers_keyword Demo.argnames ["carol"]
              [] (i := 1) eq_refl) as (_ & _ & _ & H3).
  split; [apply (H1 "alice" eq_refl)|].
  split; [apply (H2 eq_refl)|]. apply (H3 eq_refl). simpl. lia.
Defined.

Lemma sweep_of_no_keys_is_empty_witness :
  Demo.dispatch [] [] = (Ret (response_json [] 200), [])
  /\ Demo.resume [] [] = (Ret (response_json [] 200), []).
Proof.
  destruct (sweep_of_no_keys_is_empty Demo.version "collector"
              Demo.latest_channel true (ret []) Demo.get_or_create_tracker
              Demo.init_tracker opt_str_eqb Demo.get_slot Demo.handle_text
              Demo.execute_action Demo.current_state Demo.latest_event_time
              Demo.as_dialogue Demo.recreate_from_dialogue
              Demo.utcfromtimestamp Demo.utcnow Demo.members
              Demo.verbosity_name Demo.EventVerbosity_item Demo.AFTER_RESTART
              Demo.APPLIED Demo.upper Demo.request Demo.condition_params
              Demo.resume_params [] (w := []) eq_refl) as [H1 H2].
  split; [exact H1 | exact (H2 Demo.AFTER_RESTART eq_refl)].
Defined.

Lemma sweep_without_store_is_unavailable_witness :
  Sample.dispatch_with false ["+1"] []
  = (Raise (ErrorResponseExn (NoTrackerStore Demo.version)), [])
  /\ Sample.resume_with false Demo.request Demo.resume_params ["A"] []
     = (Raise (ErrorResponseExn (NoTrackerStore Demo.version)), []).
Proof.
  destruct (sweep_without_store_is_unavailable Demo.version "collector"
              Demo.latest_channel (has_tracker_store := false) (ret ["+1"])
              Demo.get_or_create_tracker Demo.init_tracker opt_str_eqb
              Demo.get_slot Demo.handle_text Demo.execute_action
              Demo.current_state Demo.latest_event_time Demo.as_dialogue
              Demo.recreate_from_dialogue Demo.utcfromtimestamp Demo.utcnow
              Demo.members Demo.verbosity_name Demo.EventVerbosity_item
              Demo.AFTER_RESTART Demo.APPLIED Demo.upper Demo.request
              Demo.condition_params Demo.resume_params [] eq_refl)
    as (H1 & _).
  destruct (sweep_without_store_is_unavailable Demo.version "collector"
              Demo.latest_channel (has_tracker_store := false) (ret ["A"])
              Demo.get_or_create_tracker Demo.init_tracker opt_str_eqb
              Demo.get_slot Demo.handle_text Demo.execute_action
              Demo.current_state Demo.latest_event_time Demo.as_dialogue
              Demo.recreate_from_dialogue Demo.utcfromtimestamp Demo.utcnow
              Demo.members Demo.verbosity_name Demo.EventVerbosity_item
              Demo.AFTER_RESTART Demo.APPLIED Demo.upper Demo.request
              Demo.condition_params Demo.resume_params [] eq_refl)
    as (_ & H2 & _).
  split; [exact H1 | exact (H2 Demo.AFTER_RESTART eq_refl)].
Defined.

Lemma resume_checks_verbosity_first_witness :
  exists e,
    Sample.resume_with true Sample.loud_request Demo.resume_params ["A"] []
    = (Raise (ErrorResponseExn e), [])
    /\ status e = 404.
Proof.
  destruct (Sample.parse_verbosity Sample.loud_request Demo.AFTER_RESTART)
    as [v|e] eqn:He; [discriminate He|].
  exists e.
  destruct (resume_checks_verbosity_first Demo.version "collector"
              Demo.latest_channel true (ret ["A"]) Demo.get_or_create_tracker
              Demo.init_tracker Demo.execute_action Demo.current_state
              Demo.latest_event_time Demo.as_dialogue
              Demo.recreate_from_dialogue Demo.utcfromtimestamp Demo.utcnow
              Demo.members Demo.verbosity_name Demo.EventVerbosity_item
              Demo.AFTER_RESTART Demo.APPLIED Demo.upper Sample.loud_request
              Demo.resume_params [] He) as (H1 & H2 & _).
  now split.
Defined.

Lemma forced_resume_triggers_every_key_witness :
  Sample.resume_with true Demo.request Sample.forced_params
    ["A"; "fresh"; "near"] []
  = (Ret (response_json [("A", VStr "Action trigger sent");
                          ("fresh", VStr "Action trigger sent");
                          ("near", VStr "Action trigger sent")] 200),
     ["near"; "fresh"; "A"]).
Proof.
  assert (Hnd : NoDup ["A"; "fresh"; "near"]).
  { repeat constructor; simpl; intuition discriminate. }
  destruct (Sample.resume_with true Demo.request Sample.forced_params
              ["A"; "fresh"; "near"] []) as [[resp|r] w'] eqn:Hrun;
    [|discriminate Hrun].
  rewrite (forced_resume_triggers_every_key Demo.version "collector"
             Demo.latest_channel true (ret ["A"; "fresh"; "near"])
             Demo.get_or_create_tracker Demo.init_tracker Demo.execute_action
             Demo.current_state Demo.latest_event_time Demo.as_dialogue
             Demo.recreate_from_dialogue Demo.utcfromtimestamp Demo.utcnow
             Demo.members Demo.verbosity_name Demo.EventVerbosity_item
             Demo.AFTER_RESTART Demo.APPLIED Demo.upper Demo.request
             Sample.forced_params [] (v := Demo.APPLIED) (w := [])
             eq_refl Hnd eq_refl eq_refl Hrun).
  injection Hrun as _ <-. reflexivity.
Defined.

Lemma dispatch_entries_name_the_sender_witness :
  exists final,
    Demo.dispatch ["+33612"; "user +44 and +55x"] []
    = (Ret (response_json final 200), ["+44"; "+33612"])
    /\ Forall (fun entry =>
                 exists sid, sender_id_of_key (fst entry) = Ret sid) final.
Proof.
  destruct (dispatch_entries_name_the_sender Demo.version "collector"
              Demo.latest_channel true
              (ret ["+33612"; "user +44 and +55x"])
              Demo.get_or_create_tracker opt_str_eqb Demo.get_slot
              Demo.handle_text Demo.request Demo.condition_params []
              (resp := response_json
                         [("+33612",
                           VStr "Message hello handle from id +33612");
                          ("user +44 and +55x",
                           VStr "Message hello handle from id +44")] 200)
              (w' := ["+44"; "+33612"]) eq_refl)
    as (ids & w & final & _ & Hresp & Hall).
  exists final. injection Hresp as <-. split; [reflexivity|].
  eapply Forall_impl; [|exact Hall].
  intros entry (_ & sid & Hsid & _). now exists sid.
Defined.


Lemma include_events_overrides_default_witness :
  Sample.parse_verbosity Sample.loud_request Demo.ALL
  = Sample.parse_verbosity Sample.loud_request Demo.NONE.
Proof.
  apply (proj1 (include_events_overrides_default Demo.version Demo.members
                  Demo.verbosity_name Demo.EventVerbosity_item Demo.upper
                  Sample.loud_request eq_refl)).
Defined.


Lemma conversation_messages_shape_witness :
  Forall (fun m => incl (map fst m) ["author"; "timestamp"; "text"])
         Sample.messages_of_events
  /\ (length Sample.messages_of_events <= length Sample.events)%nat.
Proof.
  destruct (conversation_messages_shape Sample.is_str Sample.truthy
              Sample.events (out := Sample.messages_of_events) eq_refl)
    as [Hall Hlen].
  split; [|exact Hlen].
  eapply Forall_impl; [|exact Hall]. intros m (H & _). exact H.
Defined.

Lemma conversation_messages_key_errors_witness :
  conversation_messages Sample.is_str Sample.truthy
    [ [("event", Sample.JStr "user"); ("text", Sample.JStr "hi")];
      [("timestamp", Sample.JNum 2)] ]
  = Raise (mkKeyError "event")
  /\ conversation_messages Sample.is_str Sample.truthy
       [ [("event", Sample.JStr "bot"); ("timestamp", Sample.JNum 2)] ]
     = Raise (mkKeyError "text").
Proof.
  split.
  - apply (proj1 (conversation_messages_key_errors Sample.is_str
                    Sample.truthy _)).
    exists [("timestamp", Sample.JNum 2)]. split; [|reflexivity].
    right. now left.
  - apply (proj1 (proj2 (conversation_messages_key_errors Sample.is_str
                           Sample.truthy _))).
    + repeat constructor. discriminate.
    + exists [("event", Sample.JStr "bot"); ("timestamp", Sample.JNum 2)].
      split; [now left|]. split; reflexivity.
Defined.

Lemma conversation_messages_of_dicts_witness :
  Sample.messages_of_events
  = map renamed_entries
        (filter (shown_message Sample.is_str Sample.truthy) Sample.events).
Proof.
  apply (conversation_messages_of_dicts Sample.is_str Sample.truthy
           (all_events := Sample.events)).
  - repeat constructor; simpl; intuition discriminate.
  - reflexivity.
Defined.

Lemma predict_ranks_the_scores_witness :
  Permutation Sample.ranked_scores Sample.scores
  /\ StronglySorted ranks_before Sample.ranked_scores.
Proof.
  destruct (predict_ranks_the_scores Demo.version Sample.predict_next "A" []
              (scores := Sample.ranked_scores) (rest := "policy_0")
              (w' := []) eq_refl)
    as (raw & Hraw & Hperm & Hsorted & _).
  injection Hraw as <-. now split.
Defined.

Lemma execute_action_wraps_every_failure_witness :
  exists er,
    Sample.execute_one Demo.request "down" []
    = (Raise (ErrorResponseExn er), [])
    /\ well_formed er /\ status er = 500.
Proof.
  destruct (Sample.execute_one Demo.request "down" [])
    as [[st|r] w'] eqn:Hrun; [discriminate Hrun|].
  destruct (proj1 (execute_action_wraps_every_failure Demo.version
                     "collector" Demo.latest_channel
                     Demo.get_or_create_tracker Demo.execute_action
                     Demo.current_state Demo.members Demo.verbosity_name
                     Demo.EventVerbosity_item Demo.AFTER_RESTART Demo.upper
                     Demo.request Demo.resume_params "down" [])
             r w' Hrun) as (er & -> & Hwf & _).
  exists er. injection Hrun as Her <-. split; [reflexivity|].
  split; [exact Hwf|]. now rewrite <- Her.
Defined.

Lemma respond_reads_query_before_q_witness :
  Sample.respond_to
    (Sample.post [("q", Sample.JStr "a"); ("query", Sample.JStr "b")])
    "+1" []
  = (Ret [Sample.JStr "b"], ["+1"])
  /\ Sample.respond_to (Sample.post [("text", Sample.JStr "a")]) "+1" []
     = (Raise (ErrorResponseExn (MissingMessage Demo.version)), []).
Proof.
  unfold Sample.respond_to. split.
  - rewrite (proj1 (proj2 (respond_reads_query_before_q Demo.version
               "collector" Sample.handle_text
               (Sample.post [("q", Sample.JStr "a");
                             ("query", Sample.JStr "b")])
               "+1" eq_refl)) (Sample.JStr "b") eq_refl).
    reflexivity.
  - apply (proj1 (proj2 (proj2 (proj2 (respond_reads_query_before_q
             Demo.version "collector" Sample.handle_text
             (Sample.post [("text", Sample.JStr "a")]) "+1" eq_refl))))
             eq_refl eq_refl).
Defined.

Lemma log_message_takes_user_messages_only_witness :
  Sample.log
    (Sample.post [("message", Sample.JStr "a"); ("sender", Sample.JStr "bot")])
    "+1" []
  = (Raise (ErrorResponseExn
              (NotSupported Demo.version Sample.str_of
                 (Some (Sample.JStr "bot")))), []).
Proof.
  apply (proj1 (proj1 (proj2 (log_message_takes_user_messages_only
           Demo.version Sample.is_str Sample.str_of Sample.log_user_message
           (Ret Demo.AFTER_RESTART)
           (Sample.post [("message", Sample.JStr "a");
                         ("sender", Sample.JStr "bot")])
           "+1" eq_refl)) Demo.AFTER_RESTART eq_refl) eq_refl).
Defined.

Lemma get_domain_goes_by_the_end_of_accept_witness :
  get_domain Demo.version (Ret 7) (Ret "slots: {}")
    (Some "application/x-yaml")
  = Ret (YamlAnswer "slots: {}" 200 "application/x-yml")
  /\ get_domain Demo.version (Ret 7) (Ret "slots: {}") (Some "text/html")
     = Raise (ErrorResponseExn (InvalidHeader Demo.version)).
Proof.
  assert (H := get_domain_goes_by_the_end_of_accept Demo.version
                 (Ret 7) (Ret "slots: {}")).
  destruct H as (_ & _ & Hyaml & Hbad & _). split.
  - apply Hyaml.
    + rewrite <- ends_with_spec. discriminate.
    + exists "application/x-". now right.
  - apply Hbad. repeat split; rewrite <- ends_with_spec; discriminate.
Defined.

Lemma authorization_comes_before_agent_check_witness :
  Sample.endpoint (Some true) None false Demo.request [] []
  = Rejected (NotAuthenticated Demo.version Demo.docs)
  /\ Sample.endpoint None None false Demo.request [] []
     = Dispatched (Rejected (NoAgent Demo.version Demo.docs)).
Proof.
  split.
  - apply (proj1 (authorization_comes_before_agent_check Demo.version
                    Demo.docs (Some true) None Demo.handler Demo.argnames
                    Demo.request [] [])
             _ false eq_refl).
  - apply (proj1 (proj1 (proj2 (authorization_comes_before_agent_check
                                  Demo.version Demo.docs None None
                                  Demo.handler Demo.argnames
                                  Demo.request [] []))
                    eq_refl)).
Defined.
